(** * examples/advanced-pytorch/utils.py

    A shallow embedding of the helper functions of the advanced PyTorch
    example: the transform pipeline, the partition loader, the classifier
    surgery and the train / test loops.  Python objects that the code mutates
    live in an explicit store; the loops run in a state-and-exception monad
    over the network object; what the tensor library computes (forward pass,
    loss, gradients, optimizer update) is an interface. *)

From Stdlib Require Import ZArith QArith Qround Lia Lqa List.
From stdpp Require Import gmap strings list.

Local Open Scope Z_scope.

(** ** Exceptions and the state-and-exception monad *)

Inductive Exn : Type :=
  | KeyError
  | AttributeError
  | TypeError
  | RuntimeError
  | ValueError
  | ZeroDivisionError.

(** A call either returns a value or raises; both leave a state behind,
    since whatever was mutated before a [raise] stays mutated. *)
Inductive Outcome (S A : Type) : Type :=
  | Returns (a : A) (s : S)
  | Raises (e : Exn) (s : S).
Arguments Returns {S A} a s.
Arguments Raises {S A} e s.

Definition M (S A : Type) : Type := S -> Outcome S A.

#[global] Instance M_ret {S} : MRet (M S) := fun A a s => Returns a s.
#[global] Instance M_bind {S} : MBind (M S) := fun A B k m s =>
  match m s with
  | Returns a s' => k a s'
  | Raises e s' => Raises e s'
  end.

Definition raise {S A} (e : Exn) : M S A := fun s => Raises e s.
Definition get {S} : M S S := fun s => Returns s s.
Definition modify {S} (f : S -> S) : M S unit := fun s => Returns tt (f s).

(** The state a call leaves behind, however it ends. *)
Definition final_state {S A} (o : Outcome S A) : S :=
  match o with Returns _ s => s | Raises _ s => s end.

Definition returned {S A} (o : Outcome S A) : bool :=
  match o with Returns _ _ => true | Raises _ _ => false end.

(** ** The tensor library, as the loops use it *)

Inductive Device : Type :=
  | cpu
  | cuda (index : nat).

(** [torch.optim.SGD] keyword arguments. *)
Record SGD : Type := mkSGD {
  lr : Q;
  momentum : Q;
  weight_decay : Q
}.

Class TensorLib : Type := {
  (** model weights (parameters and buffers), input tensors, output logits,
      gradients, and the optimizer's momentum buffers *)
  Params : Type;
  Images : Type;
  Outputs : Type;
  Grads : Type;
  OptState : Type;
  (** entries of a dataset, of which only the number is used *)
  Sample : Type;
  (** [net(images)], in training mode ([true]) or inference mode; the
      running statistics that a pass in training mode refreshes are not
      followed *)
  net_forward : bool -> Params -> Images -> Outputs;
  (** [torch.nn.CrossEntropyLoss()(outputs, labels).item()]; losses and
      accuracies are rationals, the rounding of floats is not followed *)
  cross_entropy : Outputs -> list Z -> Q;
  (** the indices returned by [torch.max(outputs.data, 1)] *)
  torch_max_1 : Outputs -> list Z;
  (** gradient of the loss of a batch with respect to the weights *)
  autograd : Params -> Images -> list Z -> Grads;
  grad_zero : Grads;
  grad_add : Grads -> Grads -> Grads;
  (** a fresh optimizer over [net.parameters()] and one update of it *)
  sgd_init : Params -> OptState;
  sgd_update : SGD -> OptState -> Params -> Grads -> OptState * Params
}.

Section Loops.
Context `{TL : TensorLib}.

(** A batch yielded by a loader: [batch["img"]] and [batch["label"]]. *)
Record Batch : Type := mkBatch {
  img : Images;
  label : list Z
}.

(** A loader is iterable and has a [dataset] attribute. *)
Record Loader : Type := mkLoader {
  dataset : list Sample;
  batches : list Batch
}.

(** The network object [net]. *)
Record Net : Type := mkNet {
  location : Device;
  training : bool;
  parameters : Params;
  grad : Grads
}.

(** What a call does to the network and the optimizer, in order. *)
Inductive Event : Type :=
  | ev_to (d : Device)
  | ev_train_mode
  | ev_eval_mode
  | ev_zero_grad
  | ev_forward (b : Batch)
  | ev_loss (b : Batch)
  | ev_backward
  | ev_step (cfg : SGD).

Record World : Type := mkWorld {
  net : Net;
  trace : list Event
}.

Definition emit (e : Event) : M World unit :=
  modify (fun w => mkWorld (net w) (trace w ++ [e])).

Definition update_net (f : Net -> Net) : M World unit :=
  modify (fun w => mkWorld (f (net w)) (trace w)).

(** [net.to(device)] *)
Definition net_to (d : Device) : M World unit :=
  _ ← update_net (fun n => mkNet d (training n) (parameters n) (grad n));
  emit (ev_to d).

(** [net.train()] and [net.eval()] *)
Definition net_train : M World unit :=
  _ ← update_net (fun n => mkNet (location n) true (parameters n) (grad n));
  emit ev_train_mode.

Definition net_eval : M World unit :=
  _ ← update_net (fun n => mkNet (location n) false (parameters n) (grad n));
  emit ev_eval_mode.

(** [optimizer.zero_grad()] *)
Definition optimizer_zero_grad : M World unit :=
  _ ← update_net (fun n => mkNet (location n) (training n) (parameters n) grad_zero);
  emit ev_zero_grad.

(** [net(images)] *)
Definition net_call (b : Batch) : M World Outputs :=
  w ← get;
  _ ← emit (ev_forward b);
  mret (net_forward (training (net w)) (parameters (net w)) (img b)).

(** [criterion(outputs, labels)], a cross-entropy loss *)
Definition criterion (outputs : Outputs) (b : Batch) : M World Q :=
  _ ← emit (ev_loss b);
  mret (cross_entropy outputs (label b)).

(** [loss.backward()] accumulates into the gradients. *)
Definition loss_backward (b : Batch) : M World unit :=
  _ ← update_net (fun n =>
        mkNet (location n) (training n) (parameters n)
              (grad_add (grad n) (autograd (parameters n) (img b) (label b))));
  emit ev_backward.

(** [optimizer.step()] *)
Definition optimizer_step (cfg : SGD) (opt : OptState) : M World OptState :=
  w ← get;
  let '(opt', p') := sgd_update cfg opt (parameters (net w)) (grad (net w)) in
  _ ← update_net (fun n => mkNet (location n) (training n) p' (grad n));
  _ ← emit (ev_step cfg);
  mret opt'.

(** [(predicted == labels).sum().item()] *)
Fixpoint count_equal (predicted labels : list Z) : Z :=
  match predicted, labels with
  | p :: ps, l :: ls => (if p =? l then 1 else 0) + count_equal ps ls
  | _, _ => 0
  end.

(** Python's [/] on two ints. *)
Definition truediv (a b : Z) : M World Q :=
  if b =? 0 then raise ZeroDivisionError
  else mret (inject_Z a / inject_Z b)%Q.

(** The body of [for batch_idx, batch in enumerate(testloader)], from
    index [batch_idx] on, with the accumulators [correct] and [loss]. *)
Fixpoint test_loop (steps : option Z) (batch_idx : Z) (bs : list Batch)
         (correct : Z) (loss : Q) : M World (Z * Q) :=
  match bs with
  | [] => mret (correct, loss)
  | batch :: rest =>
      outputs ← net_call batch;
      l ← criterion outputs batch;
      let loss := (loss + l)%Q in
      let predicted := torch_max_1 outputs in
      let correct := correct + count_equal predicted (label batch) in
      match steps with
      | Some k =>
          if batch_idx =? k then mret (correct, loss)
          else test_loop steps (batch_idx + 1) rest correct loss
      | None => test_loop steps (batch_idx + 1) rest correct loss
      end
  end.

(** [test(net, testloader, steps, device)] *)
Definition test (testloader : Loader) (steps : option Z) (device : Device)
  : M World (Q * Q) :=
  _ ← net_to device;
  _ ← net_eval;
  '(correct, loss) ← test_loop steps 0 (batches testloader) 0 0%Q;
  accuracy ← truediv correct (Z.of_nat (length (dataset testloader)));
  _ ← net_to cpu;
  mret (loss, accuracy).

(** One iteration of [for batch in trainloader]. *)
Definition train_batch (cfg : SGD) (opt : OptState) (batch : Batch)
  : M World OptState :=
  _ ← optimizer_zero_grad;
  outputs ← net_call batch;
  _ ← criterion outputs batch;
  _ ← loss_backward batch;
  optimizer_step cfg opt.

Fixpoint train_epoch (cfg : SGD) (opt : OptState) (bs : list Batch)
  : M World OptState :=
  match bs with
  | [] => mret opt
  | batch :: rest =>
      opt' ← train_batch cfg opt batch;
      train_epoch cfg opt' rest
  end.

(** [for _ in range(epochs)], for the [n] values the range holds. *)
Fixpoint train_epochs (cfg : SGD) (opt : OptState) (trainloader : Loader)
         (n : nat) : M World OptState :=
  match n with
  | O => mret opt
  | S n' =>
      opt' ← train_epoch cfg opt (batches trainloader);
      train_epochs cfg opt' trainloader n'
  end.

Definition sgd_config : SGD := mkSGD 0.1 0.9 0.0001.

(** [train(net, trainloader, valloader, epochs, device)] *)
Definition train (trainloader valloader : Loader) (epochs : Z)
           (device : Device) : M World (gmap string Q) :=
  _ ← net_to device;
  w ← get;
  let optimizer := sgd_init (parameters (net w)) in
  _ ← net_train;
  _ ← train_epochs sgd_config optimizer trainloader (Z.to_nat epochs);
  _ ← net_to cpu;
  '(train_loss, train_acc) ← test trainloader None cpu;
  '(val_loss, val_acc) ← test valloader None cpu;
  mret (<["train_loss" := train_loss]>
       (<["train_accuracy" := train_acc]>
        (<["val_loss" := val_loss]>
         (<["val_accuracy" := val_acc]> ∅)))).

(** The two evaluations that end [train]. *)
Definition evaluations (tl vl : Loader) : M World (gmap string Q) :=
  '(train_loss, train_acc) ← test tl None cpu;
  '(val_loss, val_acc) ← test vl None cpu;
  mret (<["train_loss" := train_loss]>
        (<["train_accuracy" := train_acc]>
         (<["val_loss" := val_loss]>
          (<["val_accuracy" := val_acc]> ∅)))).

(** *** Reading a trace *)

(** The batches the loop of [test] consumes, read off the control flow
    alone: every batch up to and including the one whose index is
    [steps]. *)
Fixpoint consumed (steps : option Z) (batch_idx : Z) (bs : list Batch)
  : list Batch :=
  match bs with
  | [] => []
  | b :: rest =>
      b :: match steps with
           | Some k => if batch_idx =? k then []
                       else consumed steps (batch_idx + 1) rest
           | None => consumed steps (batch_idx + 1) rest
           end
  end.

(** The batches on which a trace ran the network. *)
Definition processed (tr : list Event) : list Batch :=
  flat_map (fun e => match e with ev_forward b => [b] | _ => [] end) tr.

Definition eval_events (b : Batch) : list Event := [ev_forward b; ev_loss b].

Definition labels_total (bs : list Batch) : Z :=
  fold_right (fun b n => Z.of_nat (length (label b)) + n) 0 bs.

(** What one iteration of the training loop does, in order. *)
Definition train_events (cfg : SGD) (b : Batch) : list Event :=
  [ev_zero_grad; ev_forward b; ev_loss b; ev_backward; ev_step cfg].

(** The number of optimizer updates in a trace. *)
Definition optimizer_steps (tr : list Event) : nat :=
  length (List.filter (fun e => match e with ev_step _ => true | _ => false end) tr).

(** Events of an evaluation: no gradient is touched, no weight updated. *)
Definition is_eval_event (e : Event) : bool :=
  match e with
  | ev_to _ | ev_eval_mode | ev_forward _ | ev_loss _ => true
  | _ => false
  end.

End Loops.

(** ** Python objects in a store *)

(** What the vision and dataset libraries provide. *)
Class ImageLib : Type := {
  PILImage : Type;
  Tensor : Type;
  (** [torchvision.transforms] on an image *)
  Resize : Z -> PILImage -> PILImage;
  CenterCrop : Z -> PILImage -> PILImage;
  ToTensor : PILImage -> Tensor;
  Normalize : list Q -> list Q -> Tensor -> Tensor;
  (** the values [torch.nn.Linear(in, out)] draws for its weight and bias *)
  Linear_weight : Z -> Z -> Tensor;
  Linear_bias : Z -> Tensor
}.

Section Store.
Context `{IL : ImageLib}.

Inductive Value : Type :=
  | VNone
  | VInt (z : Z)
  | VImage (p : PILImage)
  | VTensor (t : Tensor)
  | VRef (l : positive).

(** Mutable objects: a dict with string keys, a list, and an object with
    attributes (a [torch.nn.Module]). *)
Inductive Obj : Type :=
  | ODict (items : gmap string Value)
  | OList (elems : list Value)
  | OModule (attrs : gmap string Value).

Definition alloc (o : Obj) : M (gmap positive Obj) Value :=
  fun h => let l := fresh (dom h) in Returns (VRef l) (<[l := o]> h).

(** [d[key]] *)
Definition getitem (d : Value) (key : string) : M (gmap positive Obj) Value :=
  fun h =>
    match d with
    | VRef l =>
        match h !! l with
        | Some (ODict items) =>
            match items !! key with
            | Some v => Returns v h
            | None => Raises KeyError h
            end
        | _ => Raises TypeError h
        end
    | _ => Raises TypeError h
    end.

(** [d[key] = v] *)
Definition setitem (d : Value) (key : string) (v : Value)
  : M (gmap positive Obj) unit :=
  fun h =>
    match d with
    | VRef l =>
        match h !! l with
        | Some (ODict items) => Returns tt (<[l := ODict (<[key := v]> items)]> h)
        | _ => Raises TypeError h
        end
    | _ => Raises TypeError h
    end.

(** The elements a [for] over [v] visits. *)
Definition iterate (v : Value) : M (gmap positive Obj) (list Value) :=
  fun h =>
    match v with
    | VRef l =>
        match h !! l with
        | Some (OList elems) => Returns elems h
        | _ => Raises TypeError h
        end
    | _ => Raises TypeError h
    end.

(** [o.name] *)
Definition getattr (o : Value) (name : string) : M (gmap positive Obj) Value :=
  fun h =>
    match o with
    | VRef l =>
        match h !! l with
        | Some (OModule attrs) =>
            match attrs !! name with
            | Some v => Returns v h
            | None => Raises AttributeError h
            end
        | _ => Raises AttributeError h
        end
    | _ => Raises AttributeError h
    end.

(** [o.name = v] *)
Definition setattr (o : Value) (name : string) (v : Value)
  : M (gmap positive Obj) unit :=
  fun h =>
    match o with
    | VRef l =>
        match h !! l with
        | Some (OModule attrs) =>
            Returns tt (<[l := OModule (<[name := v]> attrs)]> h)
        | _ => Raises AttributeError h
        end
    | _ => Raises AttributeError h
    end.

(** [[f(x) for x in xs]] *)
Fixpoint comprehension {S A B} (f : A -> M S B) (xs : list A) : M S (list B) :=
  match xs with
  | [] => mret []
  | x :: rest =>
      y ← f x;
      ys ← comprehension f rest;
      mret (y :: ys)
  end.

(** *** The transform pipeline *)

Definition imagenet_mean : list Q := [0.485; 0.456; 0.406]%Q.
Definition imagenet_std : list Q := [0.229; 0.224; 0.225]%Q.

(** The tensor [Compose([Resize(256), CenterCrop(224), ToTensor(),
    Normalize(...)])] makes of an image. *)
Definition transformed (p : PILImage) : Tensor :=
  Normalize imagenet_mean imagenet_std (ToTensor (CenterCrop 224 (Resize 256 p))).

(** [pytorch_transforms(img)]: [ToTensor] accepts images only. *)
Definition pytorch_transforms (v : Value) : M (gmap positive Obj) Value :=
  match v with
  | VImage p => mret (VTensor (transformed p))
  | _ => raise TypeError
  end.

(** [apply_transforms(batch)] *)
Definition apply_transforms (batch : Value) : M (gmap positive Obj) Value :=
  imgs ← getitem batch "img";
  elems ← iterate imgs;
  out ← comprehension pytorch_transforms elems;
  new ← alloc (OList out);
  _ ← setitem batch "img" new;
  mret batch.

(** *** The classifier head *)

(** The dense layer [torch.nn.Linear(i, o)] builds. *)
Definition linear_layer (i o : Z) : Obj :=
  OModule (<["in_features" := VInt i]>
           (<["out_features" := VInt o]>
            (<["weight" := VTensor (Linear_weight i o)]>
             (<["bias" := VTensor (Linear_bias o)]> ∅)))).

(** [torch.nn.Linear(in_features, out_features)]: a tensor cannot have a
    negative dimension. *)
Definition torch_nn_Linear (in_features out_features : Value)
  : M (gmap positive Obj) Value :=
  match in_features, out_features with
  | VInt i, VInt o =>
      if (i <? 0) || (o <? 0) then raise RuntimeError
      else alloc (linear_layer i o)
  | _, _ => raise TypeError
  end.

(** [replace_classifying_layer(efficientnet_model, num_classes)] *)
Definition replace_classifying_layer (efficientnet_model : Value)
           (num_classes : Z) : M (gmap positive Obj) Value :=
  classifier ← getattr efficientnet_model "classifier";
  fc ← getattr classifier "fc";
  num_features ← getattr fc "in_features";
  linear ← torch_nn_Linear num_features (VInt num_classes);
  classifier ← getattr efficientnet_model "classifier";
  _ ← setattr classifier "fc" linear;
  mret VNone.

(** Reads [d[key]] without touching the store. *)
Definition read_item (h : gmap positive Obj) (d : Value) (key : string)
  : option Value :=
  match getitem d key h with
  | Returns v _ => Some v
  | Raises _ _ => None
  end.

(** Reads [o.a1.a2...] without touching the store. *)
Fixpoint read_path (h : gmap positive Obj) (o : Value) (path : list string)
  : option Value :=
  match path with
  | [] => Some o
  | name :: rest =>
      match getattr o name h with
      | Returns v _ => read_path h v rest
      | Raises _ _ => None
      end
  end.

End Store.

(** ** The partition loader *)

(** The federated-dataset provider. *)
Class DatasetProvider `{IL : ImageLib} : Type := {
  (** the shard of the CIFAR-10 training set that goes to a participant *)
  shard : Z -> list (PILImage * Z);
  (** how the split turns a fractional size into a number of rows *)
  split_round : Q -> Z
}.

Section Partition.
Context `{DP : DatasetProvider}.

(** A dataset and the transform set on it with [with_transform], which is
    applied when rows are read, not stored. *)
Record Dataset : Type := mkDataset {
  rows : list (PILImage * Z);
  on_access : option (Value -> M (gmap positive Obj) Value)
}.

Definition num_partitions : Z := 10.

(** Modelled from the spec: [FederatedDataset.load_partition], which is the
    dataset library's.  The dataset is cut into a fixed number of shards,
    the shard of the identifier is selected, and an identifier out of the
    partition range fails. *)
Definition fds_load_partition {S} (node_id : Z) : M S Dataset :=
  if (0 <=? node_id) && (node_id <? num_partitions)
  then mret (mkDataset (shard node_id) None)
  else raise ValueError.

(** Modelled from the spec: [Dataset.train_test_split], which is the dataset
    library's.  The rows are split into a train and a test subset, the test
    subset taking the fraction [test_size] of them, rounded per the split
    policy. *)
Definition train_test_split (test_size : Q) (d : Dataset)
  : gmap string Dataset :=
  let n := Z.of_nat (length (rows d)) in
  let n_test := split_round (inject_Z n * test_size)%Q in
  let n_train := Z.to_nat (n - n_test) in
  <["train" := mkDataset (firstn n_train (rows d)) (on_access d)]>
  (<["test" := mkDataset (skipn n_train (rows d)) (on_access d)]> ∅).

(** [DatasetDict.with_transform] *)
Definition with_transform (f : Value -> M (gmap positive Obj) Value)
           (dd : gmap string Dataset) : gmap string Dataset :=
  (fun d => mkDataset (rows d) (Some f)) <$> dd.

(** [dd[key]] on a [DatasetDict] *)
Definition dd_getitem {S} (dd : gmap string Dataset) (key : string)
  : M S Dataset :=
  match dd !! key with
  | Some d => mret d
  | None => raise KeyError
  end.

(** [load_partition(node_id, toy)] *)
Definition load_partition {S} (node_id : Z) (toy : bool)
  : M S (Dataset * Dataset) :=
  partition ← fds_load_partition node_id;
  let partition_train_test := train_test_split 0.2 partition in
  let partition_train_test := with_transform apply_transforms partition_train_test in
  train ← dd_getitem partition_train_test "train";
  test ← dd_getitem partition_train_test "test";
  mret (train, test).

End Partition.

(** ** Concrete instances

    Small stand-ins for the libraries, on which the definitions above
    evaluate. *)

Module Toy.

(** Images are their (width, height), tensors their shape. *)
Definition vision : ImageLib := {|
  PILImage := Z * Z;
  Tensor := list Z;
  Resize := fun s '(w, h) => if w <=? h then (s, h * s / w) else (w * s / h, s);
  CenterCrop := fun s _ => (s, s);
  ToTensor := fun '(w, h) => [3; h; w];
  Normalize := fun _ _ t => t;
  Linear_weight := fun i o => [o; i];
  Linear_bias := fun o => [o]
|}.

(** A batch of one 32x32 image with its label. *)
Definition batch_store : gmap positive (@Obj vision) :=
  <[1%positive := ODict (<["img" := VRef 2]> (<["label" := VRef 3]> ∅))]>
  (<[2%positive := OList [@VImage vision (32, 32)]]>
   (<[3%positive := OList [VInt 7]]> ∅)).

(** The store after [apply_transforms] has been called on that batch. *)
Definition batch_store_after : gmap positive (@Obj vision) :=
  final_state (@apply_transforms vision (VRef 1) batch_store).

(** A model with a feature extractor and a classifier ending in a dense
    layer from 1280 features to 1000 classes. *)
Definition model_store : gmap positive (@Obj vision) :=
  <[1%positive := OModule (<["features" := VRef 2]> (<["classifier" := VRef 3]> ∅))]>
  (<[2%positive := OModule (<["weight" := @VTensor vision [32; 3; 3; 3]]> ∅)]>
   (<[3%positive := OModule (<["dropout" := VRef 4]> (<["fc" := VRef 5]> ∅))]>
    (<[4%positive := OModule ∅]>
     (<[5%positive := OModule (<["in_features" := VInt 1280]>
                               (<["out_features" := VInt 1000]>
                                (<["weight" := @VTensor vision [1000; 1280]]>
                                 (<["bias" := @VTensor vision [1000]]> ∅))))]> ∅)))).

(** Every participant holds seven rows; sizes are rounded up. *)
Definition provider : @DatasetProvider vision := {|
  shard := fun id => repeat (((32, 32), id) : @PILImage vision * Z) 7;
  split_round := Qceiling
|}.

(** A network that adds its single weight to every input and predicts the
    result; the loss of a batch counts its wrong predictions. *)
Definition torch : TensorLib := {|
  Params := Z;
  Images := list Z;
  Outputs := list Z;
  Grads := Z;
  OptState := Z;
  Sample := Z * Z;
  net_forward := fun _ p imgs => map (fun x => x + p) imgs;
  cross_entropy := fun o ls => inject_Z (Z.of_nat (length ls) - count_equal o ls);
  torch_max_1 := fun o => o;
  autograd := fun _ _ _ => 1;
  grad_zero := 0;
  grad_add := Z.add;
  sgd_init := fun _ => 0;
  sgd_update := fun _ opt p g => (opt + g, p - g)
|}.

Definition samples : list (Z * Z) := [(0, 0); (1, 1); (2, 5); (3, 3)].

(** [DataLoader(samples, batch_size=2)] and a loader over no data. *)
Definition loader : @Loader torch :=
  @mkLoader torch samples [@mkBatch torch [0; 1] [0; 1]; @mkBatch torch [2; 3] [5; 3]].

Definition empty_loader : @Loader torch := @mkLoader torch [] [].

Definition world : @World torch := @mkWorld torch (@mkNet torch cpu true 0 0) [].

End Toy.

(** ** What the loops compute

    The values of [test] and the weights [train] ends with, as functions of
    the weights and the batches. *)

Section LoopValues.
Context `{TL : TensorLib}.

(** The loss of one batch and the number of its right predictions, for a
    network with weights [p] in inference mode. *)
Definition batch_loss (p : Params) (b : Batch) : Q :=
  cross_entropy (net_forward false p (img b)) (label b).

Definition batch_correct (p : Params) (b : Batch) : Z :=
  count_equal (torch_max_1 (net_forward false p (img b))) (label b).

(** Their sums over batches, added in the order of the batches. *)
Definition total_loss (p : Params) (bs : list Batch) (start : Q) : Q :=
  fold_left (fun acc b => (acc + batch_loss p b)%Q) bs start.

Definition total_correct (p : Params) (bs : list Batch) (start : Z) : Z :=
  fold_left (fun acc b => acc + batch_correct p b) bs start.

(** One update of the optimizer on the gradient of one batch alone. *)
Definition sgd_batch (cfg : SGD) (st : OptState * Params) (b : Batch)
  : OptState * Params :=
  sgd_update cfg (fst st) (snd st)
    (grad_add grad_zero (autograd (snd st) (img b) (label b))).

(** The updates of [n] passes over the batches, one after the other. *)
Fixpoint sgd_passes (cfg : SGD) (st : OptState * Params) (bs : list Batch)
         (n : nat) : OptState * Params :=
  match n with
  | O => st
  | S n' => sgd_passes cfg (fold_left (sgd_batch cfg) bs st) bs n'
  end.

(** Events of the training loop proper. *)
Definition is_update_event (e : Event) : bool :=
  match e with
  | ev_zero_grad | ev_backward | ev_step _ => true
  | _ => false
  end.

(** The world in which [test] ends: on the device it was given when the
    division fails, on the CPU otherwise. *)
Definition after_test (tl : Loader) (steps : option Z) (dev : Device)
           (w : World) (failed : bool) : World :=
  mkWorld (mkNet (if failed then dev else cpu) false
                 (parameters (net w)) (grad (net w)))
    (trace w ++ ev_to dev :: ev_eval_mode
       :: flat_map eval_events (consumed steps 0 (batches tl))
       ++ (if failed then [] else [ev_to cpu])).

(** The weights with which [train] leaves its training phase. *)
Definition trained (tl : Loader) (epochs : Z) (p : Params) : Params :=
  snd (sgd_passes sgd_config (sgd_init p, p) (batches tl) (Z.to_nat epochs)).

(** The dictionary [train] returns for these four values. *)
Definition results (train_loss train_acc val_loss val_acc : Q) : gmap string Q :=
  <["train_loss" := train_loss]>
  (<["train_accuracy" := train_acc]>
   (<["val_loss" := val_loss]>
    (<["val_accuracy" := val_acc]> ∅))).

(** A bound that the loop of [test] never meets before the loader ends. *)
Definition unbounded (steps : option Z) (bs : list Batch) : Prop :=
  match steps with
  | None => True
  | Some k => k < 0 \/ Z.of_nat (length bs) <= k + 1
  end.

End LoopValues.

(** ** What the classifier surgery computes *)

Section Surgery.
Context `{IL : ImageLib}.

(** The store after [model.classifier.fc] has been rebound to a new layer
    with [nf] inputs and [classes] outputs. *)
Definition with_new_head (h : gmap positive Obj) (model : Value)
           (nf classes : Z) : gmap positive Obj :=
  match read_path h model ["classifier"] with
  | Some (VRef cls) =>
      match h !! cls with
      | Some (OModule cattrs) =>
          <[cls := OModule (<["fc" := VRef (fresh (dom h))]> cattrs)]>
            (<[fresh (dom h) := linear_layer nf classes]> h)
      | _ => h
      end
  | _ => h
  end.

(** The call [replace_classifying_layer(model, classes)] as a function of
    what [model.classifier.fc.in_features] reads. *)
Definition replace_outcome (h : gmap positive Obj) (model : Value) (classes : Z)
  : Outcome (gmap positive Obj) Value :=
  match read_path h model ["classifier"; "fc"; "in_features"] with
  | None => Raises AttributeError h
  | Some (VInt nf) =>
      if (nf <? 0) || (classes <? 0) then Raises RuntimeError h
      else Returns VNone (with_new_head h model nf classes)
  | Some _ => Raises TypeError h
  end.

End Surgery.

(** ** Stores without dangling references *)

Section Closed.
Context `{IL : ImageLib}.

(** A value that is a reference refers to an object of the store. *)
Definition bound_in (h : gmap positive Obj) (v : Value) : Prop :=
  match v with
  | VRef l => is_Some (h !! l)
  | _ => True
  end.

Definition obj_closed (h : gmap positive Obj) (o : Obj) : Prop :=
  match o with
  | ODict items => map_Forall (fun _ v => bound_in h v) items
  | OList elems => Forall (bound_in h) elems
  | OModule attrs => map_Forall (fun _ v => bound_in h v) attrs
  end.

(** Every reference held by an object of the store is bound in it. *)
Definition closed (h : gmap positive Obj) : Prop :=
  map_Forall (fun _ o => obj_closed h o) h.

End Closed.

(** ** Loading the model *)

Section Hub.
Context `{IL : ImageLib}.

(** [torch.hub.load(repo, entrypoint, pretrained=...)], the model hub's. *)
Variable hub_load : string -> string -> bool -> M (gmap positive Obj) Value.

(** [load_efficientnet(entrypoint, classes)] *)
Definition load_efficientnet (entrypoint : string) (classes : option Z)
  : M (gmap positive Obj) Value :=
  efficientnet ← hub_load "NVIDIA/DeepLearningExamples:torchhub" entrypoint true;
  _ ← match classes with
      | Some c => replace_classifying_layer efficientnet c
      | None => mret VNone
      end;
  mret efficientnet.

End Hub.

(** Further concrete inputs. *)
Module Cases.


(** A hub that knows one entry point, for which it builds the toy model. *)
Definition hub (repo entrypoint : string) (pretrained : bool)
  : M (gmap positive (@Obj Toy.vision)) (@Value Toy.vision) :=
  if String.eqb entrypoint "nvidia_efficientnet_b0"
  then fun _ => Returns (VRef 1) Toy.model_store
  else raise RuntimeError.

End Cases.

(** * Properties *)

(** ** Running the monad *)

(** Runs the primitive operations of the monad on the state at hand. *)
Ltac run_ops :=
  repeat (progress (unfold mbind, M_bind, mret, M_ret, raise, get, modify,
                      emit, update_net, net_to, net_train, net_eval,
                      optimizer_zero_grad, net_call, criterion, loss_backward,
                      optimizer_step; cbn)).

Lemma bind_Returns {S A B} (m : M S A) (k : A -> M S B) s a s' :
  m s = Returns a s' -> (m ≫= k) s = k a s'.
Proof. intros H. unfold mbind, M_bind. now rewrite H. Qed.

Lemma bind_Returns_inv {S A B} (m : M S A) (k : A -> M S B) s b s' :
  (m ≫= k) s = Returns b s' ->
  exists a s1, m s = Returns a s1 /\ k a s1 = Returns b s'.
Proof.
  unfold mbind, M_bind. destruct (m s) as [a s1|e s1]; [|discriminate].
  intros H. now exists a, s1.
Qed.

Lemma bind_Raises {S A B} (m : M S A) (k : A -> M S B) s e s' :
  m s = Raises e s' -> (m ≫= k) s = Raises e s'.
Proof. intros H. unfold mbind, M_bind. now rewrite H. Qed.

(** ** The evaluation loop *)

Section LoopFacts.
Context `{TL : TensorLib}.

Lemma processed_app tr1 tr2 :
  processed (tr1 ++ tr2) = processed tr1 ++ processed tr2.
Proof. unfold processed. apply flat_map_app. Qed.

Lemma processed_eval_events bs :
  processed (flat_map eval_events bs) = bs.
Proof. induction bs as [|b bs IH]; simpl; [reflexivity | now rewrite IH]. Qed.

Lemma eval_events_are_eval bs :
  forallb is_eval_event (flat_map eval_events bs) = true.
Proof. induction bs as [|b bs IH]; [reflexivity | exact IH]. Qed.

Lemma count_equal_bounds predicted labels :
  0 <= count_equal predicted labels <= Z.of_nat (length labels).
Proof.
  revert labels. induction predicted as [|p ps IH]; intros [|l ls]; simpl; try lia.
  specialize (IH ls). destruct (p =? l); lia.
Qed.

Lemma consumed_none i bs : consumed None i bs = bs.
Proof. revert i. induction bs as [|b bs IH]; intros i; simpl; [|rewrite IH]; reflexivity. Qed.

Lemma consumed_below k i bs : k < i -> consumed (Some k) i bs = bs.
Proof.
  revert i. induction bs as [|b bs IH]; intros i Hlt; simpl; [reflexivity|].
  destruct (Z.eqb_spec i k); [lia|]. rewrite IH by lia. reflexivity.
Qed.

Lemma consumed_firstn k i bs :
  i <= k -> consumed (Some k) i bs = firstn (Z.to_nat (k - i + 1)) bs.
Proof.
  revert i. induction bs as [|b bs IH]; intros i Hle; simpl.
  - now rewrite firstn_nil.
  - replace (Z.to_nat (k - i + 1)) with (S (Z.to_nat (k - i))) by lia.
    simpl. f_equal. destruct (Z.eqb_spec i k) as [->|Hne].
    + now rewrite Z.sub_diag.
    + rewrite IH by lia. f_equal. lia.
Qed.

Lemma consumed_sublist steps i bs :
  labels_total (consumed steps i bs) <= labels_total bs.
Proof.
  revert i. induction bs as [|b bs IH]; intros i; simpl; [lia|].
  assert (0 <= labels_total bs).
  { clear. induction bs; simpl; lia. }
  destruct steps as [k|].
  - destruct (i =? k); simpl; [lia|]. specialize (IH (i + 1)). lia.
  - specialize (IH (i + 1)). lia.
Qed.

(** The loop always runs to its end: it returns the accumulators, leaves
    the network as it found it, and its trace is the evaluation of the
    consumed batches. *)
Lemma test_loop_returns bs : forall steps i c l w,
  exists c' l',
    test_loop steps i bs c l w
    = Returns (c', l')
        (mkWorld (net w) (trace w ++ flat_map eval_events (consumed steps i bs)))
    /\ c <= c' <= c + labels_total (consumed steps i bs)
    /\ ((forall o ls, (0 <= cross_entropy o ls)%Q) -> (l <= l')%Q).
Proof.
  induction bs as [|b bs IH]; intros steps i c l w; simpl.
  - exists c, l. unfold mret, M_ret. rewrite app_nil_r. destruct w.
    repeat split; try lia. intros _. apply Qle_refl.
  - set (o := net_forward (training (net w)) (parameters (net w)) (img b)).
    set (w1 := mkWorld (net w) ((trace w ++ [ev_forward b]) ++ [ev_loss b])).
    pose proof (count_equal_bounds (torch_max_1 o) (label b)) as Hc.
    assert (Hl : (forall o ls, (0 <= cross_entropy o ls)%Q) ->
                 (l <= l + cross_entropy o (label b))%Q).
    { intros Hce. rewrite <- (Qplus_0_r l) at 1.
      apply Qplus_le_r, Hce. }
    assert (Hrec : forall steps',
      exists c' l',
        test_loop steps' (i + 1) bs
          (c + count_equal (torch_max_1 o) (label b))
          (l + cross_entropy o (label b))%Q w1
        = Returns (c', l')
            (mkWorld (net w)
               (trace w ++ ev_forward b :: ev_loss b
                  :: flat_map eval_events (consumed steps' (i + 1) bs)))
        /\ c <= c' <= c + (Z.of_nat (length (label b))
                           + labels_total (consumed steps' (i + 1) bs))
        /\ ((forall o ls, (0 <= cross_entropy o ls)%Q) -> (l <= l')%Q)).
    { intros steps'.
      destruct (IH steps' (i + 1) (c + count_equal (torch_max_1 o) (label b))
                   (l + cross_entropy o (label b))%Q w1)
        as (c' & l' & Heq & Hb & Hq).
      exists c', l'. rewrite Heq. subst w1. simpl.
      rewrite <- !app_assoc. simpl. repeat split; try lia.
      intros Hce. eapply Qle_trans; [apply Hl, Hce | apply Hq, Hce]. }
    unfold mbind, M_bind, net_call, criterion, get, emit, modify, mret, M_ret.
    simpl. fold o. fold w1.
    destruct steps as [k|].
    + destruct (i =? k).
      * exists (c + count_equal (torch_max_1 o) (label b)),
               (l + cross_entropy o (label b))%Q.
        subst w1. simpl. rewrite <- !app_assoc. simpl.
        repeat split; try lia. exact Hl.
      * apply Hrec.
    + apply Hrec.
Qed.

(** A bound below zero is never met: the loop goes through the loader. *)
Lemma consumed_negative k bs : k < 0 -> consumed (Some k) 0 bs = bs.
Proof. intros Hk. apply consumed_below. lia. Qed.

(** [test] as a whole: it fails exactly on an empty dataset, and then
    before the network is moved back. *)
Lemma test_outcome tl steps dev w :
  exists c l,
    0 <= c <= labels_total (consumed steps 0 (batches tl))
    /\ ((forall o ls, (0 <= cross_entropy o ls)%Q) -> (0 <= l)%Q)
    /\ test tl steps dev w
       = if Z.of_nat (length (dataset tl)) =? 0
         then Raises ZeroDivisionError
                (mkWorld (mkNet dev false (parameters (net w)) (grad (net w)))
                   (trace w ++ ev_to dev :: ev_eval_mode
                      :: flat_map eval_events (consumed steps 0 (batches tl))))
         else Returns (l, (inject_Z c / inject_Z (Z.of_nat (length (dataset tl))))%Q)
                (mkWorld (mkNet cpu false (parameters (net w)) (grad (net w)))
                   (trace w ++ ev_to dev :: ev_eval_mode
                      :: flat_map eval_events (consumed steps 0 (batches tl))
                      ++ [ev_to cpu])).
Proof.
  set (w1 := mkWorld (mkNet dev false (parameters (net w)) (grad (net w)))
               ((trace w ++ [ev_to dev]) ++ [ev_eval_mode])).
  destruct (test_loop_returns (batches tl) steps 0 0 0%Q w1)
    as (c & l & Heq & Hc & Hl).
  exists c, l. split; [lia|]. split; [exact Hl|].
  unfold test, mbind, M_bind, net_to, net_eval, update_net, emit, modify.
  simpl. fold w1. rewrite Heq. unfold truediv.
  destruct (Z.of_nat (length (dataset tl)) =? 0); unfold raise, mret, M_ret;
    subst w1; simpl; rewrite <- !app_assoc; simpl.
  - reflexivity.
  - rewrite <- ?app_assoc. reflexivity.
Qed.

(** ** The training loop *)

Lemma train_batch_returns cfg opt b w :
  exists opt' p' g',
    train_batch cfg opt b w
    = Returns opt'
        (mkWorld (mkNet (location (net w)) (training (net w)) p' g')
           (trace w ++ train_events cfg b)).
Proof.
  unfold train_batch. run_ops.
  destruct (sgd_update cfg opt (parameters (net w))
              (grad_add grad_zero (autograd (parameters (net w)) (img b) (label b))))
    as [opt' p'].
  cbn. eexists _, _, _. rewrite <- ?app_assoc. reflexivity.
Qed.

Lemma train_epoch_returns cfg bs : forall opt w,
  exists opt' p' g',
    train_epoch cfg opt bs w
    = Returns opt'
        (mkWorld (mkNet (location (net w)) (training (net w)) p' g')
           (trace w ++ flat_map (train_events cfg) bs)).
Proof.
  induction bs as [|b bs IH]; intros opt w.
  - exists opt, (parameters (net w)), (grad (net w)).
    simpl. unfold mret, M_ret. rewrite app_nil_r. now destruct w as [[] ?].
  - destruct (train_batch_returns cfg opt b w) as (opt1 & p1 & g1 & H1).
    cbn [train_epoch]. unfold mbind, M_bind. rewrite H1.
    destruct (IH opt1 (mkWorld (mkNet (location (net w)) (training (net w)) p1 g1)
                         (trace w ++ train_events cfg b)))
      as (opt2 & p2 & g2 & H2).
    exists opt2, p2, g2. rewrite H2. cbn [net trace location training flat_map].
    now rewrite <- app_assoc.
Qed.

Lemma train_epochs_returns cfg tl n : forall opt w,
  exists opt' p' g',
    train_epochs cfg opt tl n w
    = Returns opt'
        (mkWorld (mkNet (location (net w)) (training (net w)) p' g')
           (trace w
              ++ concat (repeat (flat_map (train_events cfg) (batches tl)) n))).
Proof.
  induction n as [|n IH]; intros opt w.
  - exists opt, (parameters (net w)), (grad (net w)).
    simpl. unfold mret, M_ret. rewrite app_nil_r. now destruct w as [[] ?].
  - destruct (train_epoch_returns cfg (batches tl) opt w) as (opt1 & p1 & g1 & H1).
    cbn [train_epochs]. unfold mbind, M_bind. rewrite H1.
    destruct (IH opt1 (mkWorld (mkNet (location (net w)) (training (net w)) p1 g1)
                         (trace w ++ flat_map (train_events cfg) (batches tl))))
      as (opt2 & p2 & g2 & H2).
    exists opt2, p2, g2. rewrite H2. cbn [net trace location training repeat concat].
    now rewrite <- app_assoc.
Qed.

(** [train] is its training phase, which cannot fail, followed by the two
    evaluations. *)
Lemma train_phases tl vl epochs dev w :
  exists p' g',
    train tl vl epochs dev w
    = evaluations tl vl
        (mkWorld (mkNet cpu true p' g')
           (trace w ++ ev_to dev :: ev_train_mode
              :: concat (repeat (flat_map (train_events sgd_config) (batches tl))
                           (Z.to_nat epochs))
              ++ [ev_to cpu]))
    /\ (Z.to_nat epochs = O -> p' = parameters (net w)).
Proof.
  set (w1 := mkWorld (mkNet dev true (parameters (net w)) (grad (net w)))
               ((trace w ++ [ev_to dev]) ++ [ev_train_mode])).
  destruct (train_epochs_returns sgd_config tl (Z.to_nat epochs)
              (sgd_init (parameters (net w))) w1) as (opt' & p' & g' & H).
  exists p', g'. split.
  - unfold train.
    erewrite bind_Returns by reflexivity.
    erewrite bind_Returns by reflexivity.
    erewrite bind_Returns by reflexivity.
    cbn [net parameters]. fold w1.
    erewrite bind_Returns by exact H.
    erewrite bind_Returns by reflexivity.
    unfold evaluations. f_equal. subst w1.
    cbn [net trace location training parameters grad].
    rewrite <- !app_assoc. reflexivity.
  - intros Hz. rewrite Hz in H. simpl in H. unfold mret, M_ret in H.
    subst w1. simpl in H. congruence.
Qed.

(** The evaluations only evaluate: whether they return or fail, they add
    evaluation events to the trace and leave the weights alone. *)
Lemma evaluations_trace tl vl w :
  exists tr,
    trace (final_state (evaluations tl vl w)) = trace w ++ tr
    /\ forallb is_eval_event tr = true
    /\ parameters (net (final_state (evaluations tl vl w))) = parameters (net w).
Proof.
  set (evs l := ev_to cpu :: ev_eval_mode
                :: flat_map eval_events (consumed None 0 (batches l))).
  assert (Hevs : forall l, forallb is_eval_event (evs l) = true).
  { intros l. apply eval_events_are_eval. }
  unfold evaluations.
  destruct (test_outcome tl None cpu w) as (c1 & l1 & _ & _ & H1).
  fold (evs tl) in H1.
  destruct (Z.of_nat (length (dataset tl)) =? 0).
  { erewrite bind_Raises by exact H1. exists (evs tl). now rewrite Hevs. }
  erewrite bind_Returns by exact H1. cbn beta iota.
  destruct (test_outcome vl None cpu
              (mkWorld (mkNet cpu false (parameters (net w)) (grad (net w)))
                 (trace w ++ evs tl ++ [ev_to cpu])))
    as (c2 & l2 & _ & _ & H2).
  fold (evs vl) in H2. cbn [net trace parameters grad] in H2.
  destruct (Z.of_nat (length (dataset vl)) =? 0).
  { erewrite bind_Raises by exact H2.
    exists ((evs tl ++ [ev_to cpu]) ++ evs vl). cbn [final_state trace net parameters].
    rewrite !forallb_app, !Hevs, <- !app_assoc. repeat split. }
  erewrite bind_Returns by exact H2.
  exists ((evs tl ++ [ev_to cpu]) ++ evs vl ++ [ev_to cpu]).
  cbn [final_state trace net parameters mret M_ret].
  rewrite !forallb_app, !Hevs, <- !app_assoc. repeat split.
Qed.

Lemma optimizer_steps_app tr1 tr2 :
  optimizer_steps (tr1 ++ tr2) = (optimizer_steps tr1 + optimizer_steps tr2)%nat.
Proof. unfold optimizer_steps. now rewrite List.filter_app, length_app. Qed.

Lemma optimizer_steps_eval tr :
  forallb is_eval_event tr = true -> optimizer_steps tr = O.
Proof.
  unfold optimizer_steps. induction tr as [|e tr IH]; [reflexivity|].
  cbn [forallb]. intros [He Htr]%andb_prop. destruct e; try discriminate He;
    cbn [List.filter]; apply IH, Htr.
Qed.

(** A [test] that returns has moved the network to the device first and
    back to the CPU last, and has left the weights alone. *)
Lemma test_returns_inv tl steps dev w r w' :
  test tl steps dev w = Returns r w' ->
  dataset tl <> []
  /\ location (net w') = cpu
  /\ parameters (net w') = parameters (net w)
  /\ exists tr, trace w' = trace w ++ ev_to dev :: tr ++ [ev_to cpu]
                /\ forallb is_eval_event tr = true.
Proof.
  intros Hret. destruct (test_outcome tl steps dev w) as (c & l & _ & _ & Heq).
  rewrite Hret in Heq.
  destruct (Z.eqb_spec (Z.of_nat (length (dataset tl))) 0) as [|Hn];
    [discriminate|].
  injection Heq as _ ->. cbn [net trace location parameters].
  split; [intros Hnil; now rewrite Hnil in Hn|].
  do 2 (split; [reflexivity|]).
  exists (ev_eval_mode :: flat_map eval_events (consumed steps 0 (batches tl))).
  split; [reflexivity|]. apply eval_events_are_eval.
Qed.

Lemma test_returns tl steps dev w :
  dataset tl <> [] ->
  exists loss correct w',
    test tl steps dev w
    = Returns (loss, (inject_Z correct
                      / inject_Z (Z.of_nat (length (dataset tl))))%Q) w'.
Proof.
  intros Hne. destruct (test_outcome tl steps dev w) as (c & l & _ & _ & Heq).
  destruct (Z.eqb_spec (Z.of_nat (length (dataset tl))) 0) as [Hn|Hn].
  - destruct (dataset tl); [congruence | discriminate Hn].
  - eauto.
Qed.

End LoopFacts.

(** ** Statements about the loops *)

Section LoopClaims.
Context `{TL : TensorLib}.

(** C1, amended: for every call of [test] with a bound [steps = k] that is
    not negative, on a loader that yields more than [k + 1] batches, the
    batches processed are exactly the first [k + 1] of the loader. *)
Theorem test_steps_processes_k_plus_1 (tl : Loader) (k : Z) (dev : Device)
        (w : World) :
  0 <= k ->
  k + 1 < Z.of_nat (length (batches tl)) ->
  exists done,
    processed (trace (final_state (test tl (Some k) dev w)))
    = processed (trace w) ++ done
    /\ done = firstn (Z.to_nat (k + 1)) (batches tl)
    /\ Z.of_nat (length done) = k + 1.
Proof.
  intros Hk Hlen. exists (firstn (Z.to_nat (k + 1)) (batches tl)).
  split; [|split; [reflexivity|]].
  - destruct (test_outcome tl (Some k) dev w) as (c & l & _ & _ & Heq).
    rewrite Heq, consumed_firstn by lia. rewrite Z.sub_0_r.
    destruct (Z.of_nat (length (dataset tl)) =? 0); cbn [final_state trace];
      rewrite processed_app; f_equal; cbn [processed flat_map app];
      fold (processed (flat_map eval_events (firstn (Z.to_nat (k + 1)) (batches tl)))).
    + apply processed_eval_events.
    + fold (processed (flat_map eval_events (firstn (Z.to_nat (k + 1)) (batches tl))
                         ++ [ev_to cpu])).
      rewrite processed_app, processed_eval_events. simpl. apply app_nil_r.
  - rewrite length_firstn. lia.
Qed.

(** C2: whenever [test] returns, on a loader whose batches hold no more
    labels than its dataset has entries and with a loss function that is
    never negative, the accuracy lies between 0 and 1 and the accumulated
    loss is not negative; a [steps] bound changes nothing to that. *)
Theorem test_accuracy_loss_bounds (tl : Loader) (steps : option Z)
        (dev : Device) (w w' : World) (loss accuracy : Q) :
  (forall o ls, (0 <= cross_entropy o ls)%Q) ->
  labels_total (batches tl) <= Z.of_nat (length (dataset tl)) ->
  test tl steps dev w = Returns (loss, accuracy) w' ->
  (0 <= accuracy)%Q /\ (accuracy <= 1)%Q /\ (0 <= loss)%Q.
Proof.
  intros Hce Hcover Hret.
  destruct (test_outcome tl steps dev w) as (c & l & Hc & Hl & Heq).
  rewrite Hret in Heq.
  pose proof (consumed_sublist steps 0 (batches tl)) as Hsub.
  destruct (Z.eqb_spec (Z.of_nat (length (dataset tl))) 0) as [|Hn];
    [discriminate|].
  injection Heq as -> -> _.
  set (n := Z.of_nat (length (dataset tl))) in *.
  assert (Hpos : (0 < inject_Z n)%Q).
  { unfold Qlt. simpl. lia. }
  repeat split.
  - apply Qle_shift_div_l; [exact Hpos|]. unfold Qle. simpl. lia.
  - apply Qle_shift_div_r; [exact Hpos|]. unfold Qle. simpl. lia.
  - apply Hl, Hce.
Qed.

(** C3: the training phase of [train] makes [epochs] passes over the
    training loader (the length of [range(epochs)]), and in every pass does
    for every batch, in this order: zero the gradients, run the network,
    compute the cross-entropy loss of its output against the labels,
    back-propagate, and take one optimizer step with learning rate 0.1,
    momentum 0.9 and weight decay 1e-4.  What follows the training phase
    touches neither gradients nor weights. *)
Theorem train_training_phase (tl vl : Loader) (epochs : Z) (dev : Device)
        (w : World) :
  exists rest,
    trace (final_state (train tl vl epochs dev w))
    = trace w
        ++ ev_to dev :: ev_train_mode
        :: concat (repeat
             (flat_map (fun b => [ev_zero_grad; ev_forward b; ev_loss b;
                                  ev_backward;
                                  ev_step (mkSGD 0.1 0.9 0.0001)])
                       (batches tl))
             (Z.to_nat epochs))
        ++ ev_to cpu :: rest
    /\ forallb is_eval_event rest = true.
Proof.
  destruct (train_phases tl vl epochs dev w) as (p' & g' & Heq & _).
  rewrite Heq. clear Heq.
  change (fun b : Batch => [ev_zero_grad; ev_forward b; ev_loss b; ev_backward;
                            ev_step (mkSGD 0.1 0.9 0.0001)])
    with (train_events sgd_config).
  set (w1 := mkWorld _ _).
  destruct (evaluations_trace tl vl w1) as (tr & Htr & Hev & _).
  exists tr. split; [|exact Hev].
  rewrite Htr. subst w1. cbn [trace].
  rewrite <- app_assoc. cbn [app]. do 3 f_equal.
  rewrite <- app_assoc. reflexivity.
Qed.

(** C7, amended: every call of [test] or [train] that returns has moved the
    network to the target device first, and its last move has brought the
    network back to the CPU, where it is when the call returns. *)
Theorem relocation_on_return (tl vl : Loader) (steps : option Z) (epochs : Z)
        (dev : Device) (w : World) :
  (forall r w', test tl steps dev w = Returns r w' ->
     location (net w') = cpu
     /\ exists tr, trace w' = trace w ++ ev_to dev :: tr ++ [ev_to cpu])
  /\ (forall r w', train tl vl epochs dev w = Returns r w' ->
        location (net w') = cpu
        /\ exists tr, trace w' = trace w ++ ev_to dev :: tr ++ [ev_to cpu]).
Proof.
  split; intros r w' Hret.
  - destruct (test_returns_inv _ _ _ _ _ _ Hret) as (_ & Hloc & _ & tr & Htr & _).
    eauto.
  - destruct (train_phases tl vl epochs dev w) as (p' & g' & Heq & _).
    rewrite Heq in Hret. clear Heq. unfold evaluations in Hret.
    apply bind_Returns_inv in Hret as ([l1 a1] & w2 & H1 & Hret).
    apply bind_Returns_inv in Hret as ([l2 a2] & w3 & H2 & Hret).
    injection Hret as _ <-.
    destruct (test_returns_inv _ _ _ _ _ _ H1) as (_ & _ & _ & tr1 & Htr1 & _).
    destruct (test_returns_inv _ _ _ _ _ _ H2) as (_ & Hloc & _ & tr2 & Htr2 & _).
    split; [exact Hloc|].
    rewrite Htr2, Htr1. cbn [trace].
    exists (ev_train_mode
            :: concat (repeat (flat_map (train_events sgd_config) (batches tl))
                         (Z.to_nat epochs))
            ++ [ev_to cpu] ++ (ev_to cpu :: tr1 ++ [ev_to cpu]) ++ ev_to cpu :: tr2).
    repeat (cbn [app]; rewrite <- app_assoc). reflexivity.
Qed.

(** C8: [test] divides the count of correct predictions by the size of the
    loader's dataset; on an empty dataset the division raises
    [ZeroDivisionError], and on any other dataset [test] returns. *)
Theorem test_returns_iff_dataset_nonempty (tl : Loader) (steps : option Z)
        (dev : Device) (w : World) :
  (dataset tl = []
   /\ exists w', test tl steps dev w = Raises ZeroDivisionError w')
  \/ (dataset tl <> []
      /\ exists loss correct w',
           test tl steps dev w
           = Returns (loss, (inject_Z correct
                             / inject_Z (Z.of_nat (length (dataset tl))))%Q) w').
Proof.
  destruct (dataset tl) as [|x xs] eqn:Hds.
  - left. split; [reflexivity|].
    destruct (test_outcome tl steps dev w) as (c & l & _ & _ & Heq).
    rewrite Hds in Heq. change (Z.of_nat (length (@nil Sample)) =? 0) with true in Heq.
    eexists. exact Heq.
  - right. split; [discriminate|].
    rewrite <- Hds. apply test_returns. now rewrite Hds.
Qed.

(** C10: [train] with [epochs = 0], on loaders whose datasets are not empty,
    takes no optimizer step and leaves the weights as they were, evaluates
    the network on the training loader and then on the validation loader,
    and returns the four metrics of these two evaluations. *)
Theorem train_zero_epochs (tl vl : Loader) (dev : Device) (w : World) :
  dataset tl <> [] ->
  dataset vl <> [] ->
  exists train_loss train_acc val_loss val_acc w1 w2 w3,
    trace w1 = trace w ++ [ev_to dev; ev_train_mode; ev_to cpu]
    /\ parameters (net w1) = parameters (net w)
    /\ test tl None cpu w1 = Returns (train_loss, train_acc) w2
    /\ test vl None cpu w2 = Returns (val_loss, val_acc) w3
    /\ train tl vl 0 dev w
       = Returns (<["train_loss" := train_loss]>
                  (<["train_accuracy" := train_acc]>
                   (<["val_loss" := val_loss]>
                    (<["val_accuracy" := val_acc]> ∅)))) w3
    /\ parameters (net w3) = parameters (net w)
    /\ optimizer_steps (trace w3) = optimizer_steps (trace w).
Proof.
  intros Htl Hvl.
  destruct (train_phases tl vl 0 dev w) as (p' & g' & Heq & Hp).
  specialize (Hp eq_refl). subst p'.
  change (Z.to_nat 0) with O in Heq. cbn [repeat concat app] in Heq.
  set (w1 := mkWorld _ _) in Heq.
  destruct (test_returns tl None cpu w1 Htl) as (l1 & c1 & w2 & H1).
  destruct (test_returns vl None cpu w2 Hvl) as (l2 & c2 & w3 & H2).
  destruct (test_returns_inv _ _ _ _ _ _ H1) as (_ & _ & Hp2 & tr1 & Htr1 & Hev1).
  destruct (test_returns_inv _ _ _ _ _ _ H2) as (_ & _ & Hp3 & tr2 & Htr2 & Hev2).
  eexists l1, _, l2, _, w1, w2, w3.
  split; [reflexivity|]. split; [reflexivity|].
  split; [exact H1|]. split; [exact H2|]. split; [|split].
  - rewrite Heq. unfold evaluations.
    erewrite bind_Returns by exact H1. cbn beta iota.
    erewrite bind_Returns by exact H2. reflexivity.
  - now rewrite Hp3, Hp2.
  - rewrite Htr2, Htr1. subst w1. cbn [trace].
    rewrite !optimizer_steps_app.
    change (ev_to cpu :: tr2 ++ [ev_to cpu]) with ([ev_to cpu] ++ tr2 ++ [ev_to cpu]).
    change (ev_to cpu :: tr1 ++ [ev_to cpu]) with ([ev_to cpu] ++ tr1 ++ [ev_to cpu]).
    rewrite !optimizer_steps_app, (optimizer_steps_eval tr1 Hev1),
      (optimizer_steps_eval tr2 Hev2).
    change (optimizer_steps [ev_to cpu]) with O.
    change (optimizer_steps [ev_to dev; ev_train_mode; ev_to cpu]) with O.
    lia.
Qed.

End LoopClaims.

(** ** The store: transform pipeline and classifier head *)

Section StoreFacts.
Context `{IL : ImageLib}.

Lemma fresh_unused (h : gmap positive Obj) : h !! fresh (dom h) = None.
Proof. apply not_elem_of_dom, is_fresh. Qed.

(** The comprehension leaves the store alone and, when it returns, was run
    on images only. *)
Lemma comprehension_transforms elems : forall (h h' : gmap positive Obj) out,
  comprehension pytorch_transforms elems h = Returns out h' ->
  h' = h
  /\ exists raw, elems = VImage <$> raw
                /\ out = (fun p => VTensor (transformed p)) <$> raw.
Proof.
  induction elems as [|v elems IH]; intros h h' out Hret.
  - injection Hret as <- <-. split; [reflexivity|]. now exists [].
  - cbn [comprehension] in Hret.
    apply bind_Returns_inv in Hret as (y & h1 & Hv & Hret).
    apply bind_Returns_inv in Hret as (ys & h2 & Hrest & Hret).
    injection Hret as <- <-.
    destruct v; try discriminate Hv. injection Hv as <- <-.
    destruct (IH _ _ _ Hrest) as (-> & raw & -> & ->).
    split; [reflexivity|]. now exists (p :: raw).
Qed.

(** What a returning [apply_transforms] found and what it left. *)
Lemma apply_transforms_inv batch (h h' : gmap positive Obj) v :
  apply_transforms batch h = Returns v h' ->
  exists b items old raw,
    v = batch /\ batch = VRef b
    /\ h !! b = Some (ODict items)
    /\ items !! "img" = Some (VRef old)
    /\ h !! old = Some (OList (VImage <$> raw))
    /\ h' = <[b := ODict (<["img" := VRef (fresh (dom h))]> items)]>
              (<[fresh (dom h) := OList ((fun p => VTensor (transformed p)) <$> raw)]> h).
Proof.
  unfold apply_transforms. intros Hret.
  apply bind_Returns_inv in Hret as (imgs & h1 & Hget & Hret).
  apply bind_Returns_inv in Hret as (elems & h2 & Hit & Hret).
  apply bind_Returns_inv in Hret as (out & h3 & Hcomp & Hret).
  apply bind_Returns_inv in Hret as (new & h4 & Halloc & Hret).
  apply bind_Returns_inv in Hret as ([] & h5 & Hset & Hret).
  injection Hret as Hv Hh. subst v h'.
  unfold getitem in Hget. destruct batch as [| | | |b]; try discriminate Hget.
  destruct (h !! b) as [[items| |]|] eqn:Hb; try discriminate Hget.
  destruct (items !! "img") as [imgs'|] eqn:Himg; [|discriminate Hget].
  injection Hget as Hi Hh. subst imgs' h1.
  unfold iterate in Hit. destruct imgs as [| | | |old]; try discriminate Hit.
  destruct (h !! old) as [[|elems'|]|] eqn:Hold; try discriminate Hit.
  injection Hit as He Hh. subst elems' h2.
  destruct (comprehension_transforms _ _ _ _ Hcomp) as (Hh & raw & He & Ho).
  subst h3 elems out.
  unfold alloc in Halloc. injection Halloc as Hn Hh. subst new h4.
  unfold setitem in Hset.
  assert (Hne : fresh (dom h) <> b).
  { intros Heq. pose proof (fresh_unused h) as Hf. rewrite Heq in Hf. congruence. }
  rewrite lookup_insert_ne, Hb in Hset by exact Hne.
  injection Hset as Hh. subst h5.
  exists b, items, old, raw. repeat split; assumption.
Qed.

(** Hence a returning [apply_transforms] has always changed the mapping
    it was given. *)
Lemma apply_transforms_changes_batch b (h h' : gmap positive Obj) v :
  apply_transforms (VRef b) h = Returns v h' -> h' !! b <> h !! b.
Proof.
  intros Hret.
  destruct (apply_transforms_inv _ _ _ _ Hret)
    as (b' & items & old & raw & _ & [= <-] & Hb & Himg & Hold & ->).
  rewrite lookup_insert_eq, Hb. intros [= Heq].
  assert (Hlook : (<["img" := VRef (fresh (dom h))]> items : gmap string Value)
                    !! "img" = Some (VRef old)) by (rewrite Heq; exact Himg).
  rewrite lookup_insert_eq in Hlook. injection Hlook as Hfresh.
  pose proof (fresh_unused h) as Hnone. rewrite Hfresh in Hnone. congruence.
Qed.

Lemma getattr_inv o name (h h' : gmap positive Obj) v :
  getattr o name h = Returns v h' ->
  h' = h /\ exists l attrs, o = VRef l /\ h !! l = Some (OModule attrs)
                            /\ attrs !! name = Some v.
Proof.
  unfold getattr. destruct o as [| | | |l]; try discriminate.
  destruct (h !! l) as [[| |attrs]|] eqn:Hl; try discriminate.
  destruct (attrs !! name) as [v'|] eqn:Hv; [|discriminate].
  intros [= <- <-]. split; [reflexivity|]. now exists l, attrs.
Qed.

Lemma getattr_lookup l attrs name (h : gmap positive Obj) v :
  h !! l = Some (OModule attrs) -> attrs !! name = Some v ->
  getattr (VRef l) name h = Returns v h.
Proof. intros Hl Hv. unfold getattr. now rewrite Hl, Hv. Qed.

(** What a returning [replace_classifying_layer] found and what it left. *)
Lemma replace_classifying_layer_inv model classes (h h' : gmap positive Obj) v :
  replace_classifying_layer model classes h = Returns v h' ->
  exists m mattrs cls cattrs fc fattrs nf,
    v = VNone /\ model = VRef m
    /\ h !! m = Some (OModule mattrs)
    /\ mattrs !! "classifier" = Some (VRef cls)
    /\ h !! cls = Some (OModule cattrs)
    /\ cattrs !! "fc" = Some (VRef fc)
    /\ h !! fc = Some (OModule fattrs)
    /\ fattrs !! "in_features" = Some (VInt nf)
    /\ 0 <= nf /\ 0 <= classes
    /\ h' = <[cls := OModule (<["fc" := VRef (fresh (dom h))]> cattrs)]>
              (<[fresh (dom h) := linear_layer nf classes]> h).
Proof.
  unfold replace_classifying_layer. intros Hret.
  apply bind_Returns_inv in Hret as (c1 & h1 & Hc1 & Hret).
  apply bind_Returns_inv in Hret as (f & h2 & Hf & Hret).
  apply bind_Returns_inv in Hret as (n & h3 & Hn & Hret).
  apply bind_Returns_inv in Hret as (lin & h4 & Hlin & Hret).
  apply bind_Returns_inv in Hret as (c2 & h5 & Hc2 & Hret).
  apply bind_Returns_inv in Hret as ([] & h6 & Hset & Hret).
  injection Hret as <- <-.
  apply getattr_inv in Hc1 as (-> & m & mattrs & -> & Hm & Hcls).
  apply getattr_inv in Hf as (-> & cls & cattrs & -> & Hcl & Hfc).
  apply getattr_inv in Hn as (-> & fc & fattrs & -> & Hfl & Hnf).
  unfold torch_nn_Linear in Hlin. destruct n as [|nf| | |]; try discriminate Hlin.
  destruct (Z.ltb_spec nf 0) as [|Hnf0]; [discriminate Hlin|].
  destruct (Z.ltb_spec classes 0) as [|Hcl0]; [discriminate Hlin|].
  cbn [orb] in Hlin. unfold alloc in Hlin. injection Hlin as <- <-.
  assert (Hfresh : forall l o, h !! l = Some o -> fresh (dom h) <> l).
  { intros l o Hl Heq. pose proof (fresh_unused h) as Hu.
    rewrite Heq in Hu. congruence. }
  apply getattr_inv in Hc2 as (-> & m' & mattrs' & [= <-] & Hm' & Hcls').
  rewrite lookup_insert_ne, Hm in Hm' by eauto. injection Hm' as <-.
  rewrite Hcls in Hcls'. injection Hcls' as <-.
  unfold setattr in Hset. rewrite lookup_insert_ne, Hcl in Hset by eauto.
  injection Hset as <-.
  exists m, mattrs, cls, cattrs, fc, fattrs, nf. repeat split; assumption.
Qed.

End StoreFacts.

Section StoreClaims.
Context `{IL : ImageLib}.

(** C5, amended: [apply_transforms] returns the very mapping it was given,
    after binding its key [img] to a new list that holds the transformed
    images.  The list of raw images that was under [img], every other key
    of the mapping and every other object of the store are left as they
    were. *)
Theorem apply_transforms_rebinds_img (batch v : Value)
        (h h' : gmap positive Obj) :
  apply_transforms batch h = Returns v h' ->
  v = batch
  /\ exists b items old new raw,
       batch = VRef b
       /\ h !! b = Some (ODict items)
       /\ items !! "img" = Some (VRef old)
       /\ h !! old = Some (OList (VImage <$> raw))
       /\ h !! new = None
       /\ h' !! b = Some (ODict (<["img" := VRef new]> items))
       /\ h' !! new = Some (OList ((fun p => VTensor (transformed p)) <$> raw))
       /\ h' !! old = h !! old
       /\ (forall l, l <> b -> l <> new -> h' !! l = h !! l).
Proof.
  intros Hret.
  destruct (apply_transforms_inv _ _ _ _ Hret)
    as (b & items & old & raw & -> & -> & Hb & Himg & Hold & ->).
  split; [reflexivity|].
  pose proof (fresh_unused h) as Hnew.
  assert (Hnb : fresh (dom h) <> b) by congruence.
  assert (Hno : fresh (dom h) <> old) by congruence.
  assert (Hbo : b <> old) by congruence.
  exists b, items, old, (fresh (dom h)), raw.
  repeat split; try assumption.
  - apply lookup_insert_eq.
  - rewrite lookup_insert_ne by congruence. apply lookup_insert_eq.
  - now rewrite !lookup_insert_ne by congruence.
  - intros l Hlb Hln. now rewrite !lookup_insert_ne by congruence.
Qed.

(** C4: after a call of [replace_classifying_layer(model, classes)] that
    returns, [model.classifier.fc.out_features] is [classes] and
    [model.classifier.fc.in_features] is what it was before the call. *)
Theorem replace_classifying_layer_dimensions (model v : Value) (classes : Z)
        (h h' : gmap positive Obj) :
  replace_classifying_layer model classes h = Returns v h' ->
  read_path h' model ["classifier"; "fc"; "out_features"] = Some (VInt classes)
  /\ read_path h' model ["classifier"; "fc"; "in_features"]
     = read_path h model ["classifier"; "fc"; "in_features"]
  /\ is_Some (read_path h model ["classifier"; "fc"; "in_features"]).
Proof.
  intros Hret.
  destruct (replace_classifying_layer_inv _ _ _ _ _ Hret)
    as (m & mattrs & cls & cattrs & fc & fattrs & nf & _ & -> & Hm & Hcls
        & Hcl & Hfc & Hfl & Hnf & _ & _ & ->).
  pose proof (fresh_unused h) as Hnew.
  set (new := fresh (dom h)) in *.
  set (h' := <[cls := _]> _).
  assert (Hcl' : h' !! cls = Some (OModule (<["fc" := VRef new]> cattrs))).
  { apply lookup_insert_eq. }
  assert (Hnew' : h' !! new = Some (linear_layer nf classes)).
  { unfold h'. rewrite lookup_insert_ne by congruence. apply lookup_insert_eq. }
  assert (Hm' : exists mattrs', h' !! m = Some (OModule mattrs')
                                /\ mattrs' !! "classifier" = Some (VRef cls)).
  { destruct (decide (m = cls)) as [->|Hne].
    - eexists. split; [exact Hcl'|].
      rewrite lookup_insert_ne by discriminate. congruence.
    - exists mattrs. split; [|exact Hcls]. unfold h'.
      rewrite !lookup_insert_ne by congruence. exact Hm. }
  destruct Hm' as (mattrs' & Hm' & Hcls').
  assert (Hbefore : read_path h (VRef m) ["classifier"; "fc"; "in_features"]
                    = Some (VInt nf)).
  { cbn [read_path].
    rewrite (getattr_lookup _ _ _ _ _ Hm Hcls), (getattr_lookup _ _ _ _ _ Hcl Hfc),
      (getattr_lookup _ _ _ _ _ Hfl Hnf). reflexivity. }
  rewrite Hbefore. cbn [read_path].
  rewrite !(getattr_lookup _ _ _ _ _ Hm' Hcls').
  assert (Hfc' : (<["fc" := VRef new]> cattrs : gmap string Value) !! "fc"
                 = Some (VRef new)) by apply lookup_insert_eq.
  rewrite !(getattr_lookup _ _ _ _ _ Hcl' Hfc').
  rewrite (getattr_lookup new _ "out_features" h' (VInt classes) Hnew')
    by reflexivity.
  rewrite (getattr_lookup new _ "in_features" h' (VInt nf) Hnew')
    by reflexivity.
  repeat split. eauto.
Qed.

(** C9: a call of [replace_classifying_layer] that returns, returns [None]
    and has changed one thing in the model: the attribute [fc] of the
    classifier, now bound to a layer that did not exist before.  Every
    object that was in the store other than the classifier (every other
    module with its parameters and buffers, the former layer included) is
    as it was, and so is every other attribute of the classifier. *)
Theorem replace_classifying_layer_frame (model v : Value) (classes : Z)
        (h h' : gmap positive Obj) :
  replace_classifying_layer model classes h = Returns v h' ->
  v = VNone
  /\ exists cls cattrs cattrs' new,
       read_path h model ["classifier"] = Some (VRef cls)
       /\ h !! cls = Some (OModule cattrs)
       /\ h' !! cls = Some (OModule cattrs')
       /\ cattrs' !! "fc" = Some (VRef new)
       /\ h !! new = None
       /\ (forall name, name <> "fc" -> cattrs' !! name = cattrs !! name)
       /\ (forall l, l <> cls -> is_Some (h !! l) -> h' !! l = h !! l).
Proof.
  intros Hret.
  destruct (replace_classifying_layer_inv _ _ _ _ _ Hret)
    as (m & mattrs & cls & cattrs & fc & fattrs & nf & -> & -> & Hm & Hcls
        & Hcl & Hfc & Hfl & Hnf & _ & _ & ->).
  split; [reflexivity|].
  pose proof (fresh_unused h) as Hnew.
  exists cls, cattrs, (<["fc" := VRef (fresh (dom h))]> cattrs), (fresh (dom h)).
  repeat split.
  - cbn [read_path]. now rewrite (getattr_lookup _ _ _ _ _ Hm Hcls).
  - exact Hcl.
  - apply lookup_insert_eq.
  - apply lookup_insert_eq.
  - exact Hnew.
  - intros name Hname. now apply lookup_insert_ne.
  - intros l Hl [o Ho]. rewrite !lookup_insert_ne by congruence. reflexivity.
Qed.

End StoreClaims.

(** ** The partition loader *)

Section PartitionClaims.
Context `{DP : DatasetProvider}.

Lemma split_round_bounds (n : Z) :
  (forall q, (q - 1 < inject_Z (split_round q))%Q
             /\ (inject_Z (split_round q) < q + 1)%Q) ->
  0 <= n ->
  0 <= split_round (inject_Z n * 0.2)%Q <= n
  /\ n - 5 < 5 * split_round (inject_Z n * 0.2)%Q < n + 5.
Proof.
  intros Hround Hn.
  destruct (Hround (inject_Z n * 0.2)%Q) as [Hlo Hhi].
  set (t := split_round (inject_Z n * 0.2)%Q) in *.
  unfold Qlt in Hlo, Hhi. cbn in Hlo, Hhi. lia.
Qed.

(** C6: for every identifier in the partition range, and every split policy
    that rounds to within one row, [load_partition] returns a train and a
    test subset whose sizes add up to the size of the partition, the test
    subset holding 20% of it up to that rounding. *)
Theorem load_partition_split_sizes {S : Type} (node_id : Z) (toy : bool)
        (s : S) :
  (forall q, (q - 1 < inject_Z (split_round q))%Q
             /\ (inject_Z (split_round q) < q + 1)%Q) ->
  0 <= node_id < num_partitions ->
  exists train_set test_set,
    load_partition node_id toy s = Returns (train_set, test_set) s
    /\ (length (rows train_set) + length (rows test_set)
        = length (shard node_id))%nat
    /\ (0.2 * inject_Z (Z.of_nat (length (shard node_id))) - 1
        < inject_Z (Z.of_nat (length (rows test_set))))%Q
    /\ (inject_Z (Z.of_nat (length (rows test_set)))
        < 0.2 * inject_Z (Z.of_nat (length (shard node_id))) + 1)%Q.
Proof.
  intros Hround Hid.
  set (n := Z.of_nat (length (shard node_id))).
  destruct (split_round_bounds n Hround) as [Hrange Hnear]; [lia|].
  set (n_test := split_round (inject_Z n * 0.2)%Q) in *.
  eexists (mkDataset (firstn (Z.to_nat (n - n_test)) (shard node_id))
                     (Some apply_transforms)),
          (mkDataset (skipn (Z.to_nat (n - n_test)) (shard node_id))
                     (Some apply_transforms)).
  split; [|cbn [rows]; rewrite length_firstn, length_skipn; split; [lia|]].
  - unfold load_partition, fds_load_partition.
    destruct (Z.leb_spec 0 node_id); [|lia].
    destruct (Z.ltb_spec node_id num_partitions); [|lia].
    cbn [andb]. erewrite bind_Returns by reflexivity.
    unfold with_transform, train_test_split, dd_getitem. cbn [rows on_access].
    fold n. fold n_test.
    rewrite !lookup_fmap, lookup_insert_eq.
    rewrite lookup_insert_ne, lookup_insert_eq by discriminate.
    reflexivity.
  - fold n.
    replace (Z.of_nat (length (shard node_id) - Z.to_nat (n - n_test)))
      with n_test by lia.
    unfold Qlt. cbn. lia.
Qed.

End PartitionClaims.

(** ** The statements on concrete inputs *)

(** With [steps = 0] the two-batch loader is cut after its first batch. *)
Lemma test_steps_processes_k_plus_1_witness :
  0 <= 0
  /\ 0 + 1 < Z.of_nat (length (batches Toy.loader))
  /\ exists done,
       processed (trace (final_state (test Toy.loader (Some 0) cpu Toy.world)))
       = processed (trace Toy.world) ++ done
       /\ done = firstn (Z.to_nat (0 + 1)) (batches Toy.loader)
       /\ Z.of_nat (length done) = 0 + 1.
Proof.
  split; [lia|]. split; [vm_compute; reflexivity|].
  apply (@test_steps_processes_k_plus_1 Toy.torch Toy.loader 0 cpu Toy.world).
  - lia.
  - vm_compute. reflexivity.
Defined.

(** With [steps = -1] no batch index ever equals the bound: the claim asks
    for no batch to be processed, and both are. *)
Lemma test_negative_steps_unbounded :
  (-1) + 1 < Z.of_nat (length (batches Toy.loader))
  /\ processed (trace (final_state (test Toy.loader (Some (-1)) cpu Toy.world)))
     = batches Toy.loader
  /\ Z.of_nat (length (processed
        (trace (final_state (test Toy.loader (Some (-1)) cpu Toy.world)))))
     <> (-1) + 1.
Proof.
  split; [vm_compute; reflexivity|]. split; [vm_compute; reflexivity|].
  vm_compute. discriminate.
Qed.

Lemma toy_cross_entropy_nonneg (o ls : list Z) :
  (0 <= @cross_entropy Toy.torch o ls)%Q.
Proof.
  pose proof (count_equal_bounds o ls). unfold Qle. cbn. lia.
Qed.

(** Three of the four samples are predicted right, one batch has a loss. *)
Lemma test_accuracy_loss_bounds_witness :
  labels_total (batches Toy.loader) <= Z.of_nat (length (dataset Toy.loader))
  /\ exists loss accuracy w',
       test Toy.loader None cpu Toy.world = Returns (loss, accuracy) w'
       /\ (0 <= accuracy)%Q /\ (accuracy <= 1)%Q /\ (0 <= loss)%Q.
Proof.
  assert (Hcover : labels_total (batches Toy.loader)
                   <= Z.of_nat (length (dataset Toy.loader))).
  { vm_compute. discriminate. }
  split; [exact Hcover|].
  destruct (test Toy.loader None cpu Toy.world) as [[loss accuracy] w'|e w'] eqn:Hret.
  - exists loss, accuracy, w'. split; [reflexivity|].
    exact (@test_accuracy_loss_bounds Toy.torch Toy.loader None cpu Toy.world w'
             loss accuracy toy_cross_entropy_nonneg Hcover Hret).
  - exfalso.
    assert (H : returned (test Toy.loader None cpu Toy.world) = true)
      by (vm_compute; reflexivity).
    rewrite Hret in H. discriminate H.
Defined.

(** An evaluation and a training of two epochs on the first accelerator. *)
Lemma relocation_on_return_witness :
  (exists r w',
     test Toy.loader (Some 0) (cuda 0) Toy.world = Returns r w'
     /\ location (net w') = cpu)
  /\ (exists r w',
        train Toy.loader Toy.loader 2 (cuda 0) Toy.world = Returns r w'
        /\ location (net w') = cpu).
Proof.
  destruct (@relocation_on_return Toy.torch Toy.loader Toy.loader (Some 0) 2
              (cuda 0) Toy.world) as [Htest Htrain].
  split.
  - destruct (test Toy.loader (Some 0) (cuda 0) Toy.world) as [r w'|e w'] eqn:Hret.
    + exists r, w'. split; [reflexivity|]. exact (proj1 (Htest r w' eq_refl)).
    + exfalso.
      assert (H : returned (test Toy.loader (Some 0) (cuda 0) Toy.world) = true)
        by (vm_compute; reflexivity).
      rewrite Hret in H. discriminate H.
  - destruct (train Toy.loader Toy.loader 2 (cuda 0) Toy.world) as [r w'|e w'] eqn:Hret.
    + exists r, w'. split; [reflexivity|]. exact (proj1 (Htrain r w' eq_refl)).
    + exfalso.
      assert (H : returned (train Toy.loader Toy.loader 2 (cuda 0) Toy.world) = true)
        by (vm_compute; reflexivity).
      rewrite Hret in H. discriminate H.
Defined.

(** An evaluation on an accelerator of a loader without data raises at the
    division, and the network is still on the accelerator. *)
Lemma test_failure_leaves_device :
  exists w',
    test Toy.empty_loader None (cuda 0) Toy.world = Raises ZeroDivisionError w'
    /\ location (net w') = cuda 0
    /\ location (net w') <> cpu.
Proof.
  eexists. split; [vm_compute; reflexivity|]. split; [reflexivity | discriminate].
Qed.

Lemma train_zero_epochs_witness :
  dataset Toy.loader <> []
  /\ exists r w',
       train Toy.loader Toy.loader 0 (cuda 0) Toy.world = Returns r w'
       /\ parameters (net w') = parameters (net Toy.world)
       /\ optimizer_steps (trace w') = optimizer_steps (trace Toy.world).
Proof.
  assert (Hne : dataset Toy.loader <> []) by discriminate.
  split; [exact Hne|].
  destruct (@train_zero_epochs Toy.torch Toy.loader Toy.loader (cuda 0) Toy.world
              Hne Hne)
    as (l1 & a1 & l2 & a2 & w1 & w2 & w3 & _ & _ & _ & _ & Hret & Hp & Hs).
  eexists _, w3. split; [exact Hret|]. split; assumption.
Defined.

(** The batch of one 32x32 image comes back as the same object. *)
Lemma apply_transforms_rebinds_img_witness :
  exists v h',
    @apply_transforms Toy.vision (VRef 1) Toy.batch_store = Returns v h'
    /\ v = VRef 1.
Proof.
  destruct (@apply_transforms Toy.vision (VRef 1) Toy.batch_store)
    as [v h'|e h'] eqn:Hret.
  - exists v, h'. split; [reflexivity|].
    exact (proj1 (@apply_transforms_rebinds_img Toy.vision (VRef 1) v
                    Toy.batch_store h' Hret)).
  - exfalso.
    assert (H : returned (@apply_transforms Toy.vision (VRef 1) Toy.batch_store)
                = true) by (vm_compute; reflexivity).
    rewrite Hret in H. discriminate H.
Defined.

(** The mapping passed in is not what it was: before the call its key [img]
    leads to the list of raw images, after the call to a list of tensors. *)
Lemma apply_transforms_mutates_batch :
  @apply_transforms Toy.vision (VRef 1) Toy.batch_store
  = Returns (VRef 1) Toy.batch_store_after
  /\ read_item Toy.batch_store (VRef 1) "img" = Some (VRef 2)
  /\ Toy.batch_store !! 2%positive = Some (OList [@VImage Toy.vision (32, 32)])
  /\ read_item Toy.batch_store_after (VRef 1) "img" = Some (VRef 4)
  /\ Toy.batch_store_after !! 4%positive
     = Some (OList [@VTensor Toy.vision [3; 224; 224]])
  /\ Toy.batch_store_after !! 1%positive <> Toy.batch_store !! 1%positive.
Proof.
  assert (Hafter : forall v h',
            @apply_transforms Toy.vision (VRef 1) Toy.batch_store = Returns v h' ->
            v = VRef 1 /\ Toy.batch_store_after = h').
  { intros v h' Hret. split.
    - now destruct (apply_transforms_inv _ _ _ _ Hret) as (? & ? & ? & ? & -> & _).
    - unfold Toy.batch_store_after. now rewrite Hret. }
  split; [|split; [vm_compute; reflexivity|]; split; [vm_compute; reflexivity|];
           split; [vm_compute; reflexivity|]; split; [vm_compute; reflexivity|]];
    destruct (@apply_transforms Toy.vision (VRef 1) Toy.batch_store)
      as [v h'|e h'] eqn:Hret;
    try (exfalso;
         assert (H : returned (@apply_transforms Toy.vision (VRef 1) Toy.batch_store)
                     = true) by (vm_compute; reflexivity);
         rewrite Hret in H; discriminate H);
    destruct (Hafter v h' eq_refl) as [-> ->].
  - reflexivity.
  - exact (apply_transforms_changes_batch _ _ _ _ Hret).
Qed.

(** The model with a 1280-to-1000 classifier, cut down to ten classes. *)
Lemma replace_classifying_layer_dimensions_witness :
  exists v h',
    @replace_classifying_layer Toy.vision (VRef 1) 10 Toy.model_store = Returns v h'
    /\ read_path h' (VRef 1) ["classifier"; "fc"; "out_features"] = Some (VInt 10)
    /\ read_path h' (VRef 1) ["classifier"; "fc"; "in_features"]
       = read_path Toy.model_store (VRef 1) ["classifier"; "fc"; "in_features"].
Proof.
  destruct (@replace_classifying_layer Toy.vision (VRef 1) 10 Toy.model_store)
    as [v h'|e h'] eqn:Hret.
  - exists v, h'. split; [reflexivity|].
    destruct (@replace_classifying_layer_dimensions Toy.vision (VRef 1) v 10
                Toy.model_store h' Hret) as (Hout & Hin & _).
    split; assumption.
  - exfalso.
    assert (H : returned (@replace_classifying_layer Toy.vision (VRef 1) 10
                            Toy.model_store) = true) by (vm_compute; reflexivity).
    rewrite Hret in H. discriminate H.
Defined.

(** On the same model, the feature extractor is one of the objects left
    alone. *)
Lemma replace_classifying_layer_frame_witness :
  exists v h',
    @replace_classifying_layer Toy.vision (VRef 1) 10 Toy.model_store = Returns v h'
    /\ v = VNone.
Proof.
  destruct (@replace_classifying_layer Toy.vision (VRef 1) 10 Toy.model_store)
    as [v h'|e h'] eqn:Hret.
  - exists v, h'. split; [reflexivity|].
    exact (proj1 (@replace_classifying_layer_frame Toy.vision (VRef 1) v 10
                    Toy.model_store h' Hret)).
  - exfalso.
    assert (H : returned (@replace_classifying_layer Toy.vision (VRef 1) 10
                            Toy.model_store) = true) by (vm_compute; reflexivity).
    rewrite Hret in H. discriminate H.
Defined.

Lemma Qceiling_within_one (q : Q) :
  (q - 1 < inject_Z (Qceiling q))%Q /\ (inject_Z (Qceiling q) < q + 1)%Q.
Proof.
  pose proof (Qle_ceiling q) as Hle. pose proof (Qceiling_lt q) as Hlt.
  unfold Z.sub in Hlt. rewrite inject_Z_plus, inject_Z_opp in Hlt.
  change (inject_Z 1) with 1%Q in Hlt. split; lra.
Qed.

(** The fourth participant, with seven rows split into five and two. *)
Lemma load_partition_split_sizes_witness :
  0 <= 3 < num_partitions
  /\ exists train_set test_set,
       @load_partition Toy.vision Toy.provider unit 3 false tt
       = Returns (train_set, test_set) tt
       /\ (length (rows train_set) + length (rows test_set)
           = length (@shard Toy.vision Toy.provider 3))%nat.
Proof.
  assert (Hid : 0 <= 3 < num_partitions) by (unfold num_partitions; lia).
  split; [exact Hid|].
  destruct (@load_partition_split_sizes Toy.vision Toy.provider unit 3 false tt
              Qceiling_within_one Hid)
    as (train_set & test_set & Hret & Hsum & _).
  exists train_set, test_set. split; assumption.
Defined.


(** * Further properties *)

(** ** The loops, exactly *)

Section LoopExact.
Context `{TL : TensorLib}.

(** The loop on a network in inference mode: what it returns and what it
    leaves. *)
Lemma test_loop_exact bs : forall steps i c l w,
  training (net w) = false ->
  test_loop steps i bs c l w
  = Returns (total_correct (parameters (net w)) (consumed steps i bs) c,
             total_loss (parameters (net w)) (consumed steps i bs) l)
      (mkWorld (net w) (trace w ++ flat_map eval_events (consumed steps i bs))).
Proof.
  induction bs as [|b bs IH]; intros steps i c l w Hmode.
  - cbn. unfold mret, M_ret. rewrite app_nil_r. now destruct w.
  - cbn [test_loop consumed].
    erewrite bind_Returns by reflexivity.
    erewrite bind_Returns by reflexivity.
    cbn [net trace]. rewrite Hmode.
    fold (batch_loss (parameters (net w)) b).
    fold (batch_correct (parameters (net w)) b).
    assert (Hrec : forall steps',
      test_loop steps' (i + 1) bs (c + batch_correct (parameters (net w)) b)
        (l + batch_loss (parameters (net w)) b)%Q
        (mkWorld (net w) ((trace w ++ [ev_forward b]) ++ [ev_loss b]))
      = Returns (total_correct (parameters (net w))
                   (b :: consumed steps' (i + 1) bs) c,
                 total_loss (parameters (net w))
                   (b :: consumed steps' (i + 1) bs) l)
          (mkWorld (net w)
             (trace w ++ flat_map eval_events (b :: consumed steps' (i + 1) bs)))).
    { intros steps'. rewrite IH by exact Hmode. cbn [net trace flat_map].
      rewrite <- !app_assoc. reflexivity. }
    destruct steps as [k|]; [destruct (i =? k)|]; try apply Hrec.
    unfold mret, M_ret. cbn [flat_map]. rewrite app_nil_r, <- !app_assoc.
    reflexivity.
Qed.

Lemma test_exact tl steps dev w :
  test tl steps dev w
  = if Z.of_nat (length (dataset tl)) =? 0
    then Raises ZeroDivisionError (after_test tl steps dev w true)
    else Returns
           (total_loss (parameters (net w)) (consumed steps 0 (batches tl)) 0,
            (inject_Z (total_correct (parameters (net w))
                         (consumed steps 0 (batches tl)) 0)
             / inject_Z (Z.of_nat (length (dataset tl))))%Q)
           (after_test tl steps dev w false).
Proof.
  unfold test.
  erewrite bind_Returns by reflexivity.
  erewrite bind_Returns by reflexivity.
  erewrite bind_Returns by (apply test_loop_exact; reflexivity).
  cbn [net trace parameters]. unfold truediv, after_test.
  destruct (Z.of_nat (length (dataset tl)) =? 0).
  - unfold mbind, M_bind, raise. rewrite app_nil_r, <- !app_assoc. reflexivity.
  - erewrite bind_Returns by reflexivity.
    erewrite bind_Returns by reflexivity.
    unfold mret, M_ret. cbn [net trace location training parameters grad].
    rewrite <- !app_assoc. reflexivity.
Qed.

Lemma train_batch_exact cfg opt b w :
  train_batch cfg opt b w
  = Returns (fst (sgd_batch cfg (opt, parameters (net w)) b))
      (mkWorld
         (mkNet (location (net w)) (training (net w))
                (snd (sgd_batch cfg (opt, parameters (net w)) b))
                (grad_add grad_zero
                   (autograd (parameters (net w)) (img b) (label b))))
         (trace w ++ train_events cfg b)).
Proof.
  unfold train_batch, sgd_batch. run_ops.
  destruct (sgd_update cfg opt (parameters (net w))
              (grad_add grad_zero (autograd (parameters (net w)) (img b) (label b))))
    as [opt' p'].
  cbn. rewrite <- ?app_assoc. reflexivity.
Qed.

Lemma train_epoch_exact cfg bs : forall opt w,
  exists g',
    train_epoch cfg opt bs w
    = Returns (fst (fold_left (sgd_batch cfg) bs (opt, parameters (net w))))
        (mkWorld
           (mkNet (location (net w)) (training (net w))
                  (snd (fold_left (sgd_batch cfg) bs (opt, parameters (net w))))
                  g')
           (trace w ++ flat_map (train_events cfg) bs)).
Proof.
  induction bs as [|b bs IH]; intros opt w.
  - exists (grad (net w)). cbn. unfold mret, M_ret. rewrite app_nil_r.
    now destruct w as [[] ?].
  - cbn [train_epoch fold_left flat_map].
    erewrite bind_Returns by apply train_batch_exact.
    destruct (IH (fst (sgd_batch cfg (opt, parameters (net w)) b))
                (mkWorld
                   (mkNet (location (net w)) (training (net w))
                      (snd (sgd_batch cfg (opt, parameters (net w)) b))
                      (grad_add grad_zero
                         (autograd (parameters (net w)) (img b) (label b))))
                   (trace w ++ train_events cfg b))) as (g' & Heq).
    exists g'. rewrite Heq. cbn [net trace location training parameters].
    rewrite <- surjective_pairing, <- app_assoc. reflexivity.
Qed.

Lemma train_epochs_exact cfg tl n : forall opt w,
  exists g',
    train_epochs cfg opt tl n w
    = Returns (fst (sgd_passes cfg (opt, parameters (net w)) (batches tl) n))
        (mkWorld
           (mkNet (location (net w)) (training (net w))
                  (snd (sgd_passes cfg (opt, parameters (net w)) (batches tl) n))
                  g')
           (trace w
              ++ concat (repeat (flat_map (train_events cfg) (batches tl)) n))).
Proof.
  induction n as [|n IH]; intros opt w.
  - exists (grad (net w)). cbn. unfold mret, M_ret. rewrite app_nil_r.
    now destruct w as [[] ?].
  - cbn [train_epochs sgd_passes repeat concat].
    destruct (train_epoch_exact cfg (batches tl) opt w) as (g1 & H1).
    erewrite bind_Returns by exact H1.
    match goal with |- context [train_epochs cfg ?o tl n ?w0] =>
      destruct (IH o w0) as (g' & Heq) end.
    exists g'. rewrite Heq. cbn [net trace location training parameters].
    rewrite <- surjective_pairing, <- app_assoc. reflexivity.
Qed.

(** [train] is the two evaluations, run on the trained weights. *)
Lemma train_exact tl vl epochs dev w :
  exists g',
    train tl vl epochs dev w
    = evaluations tl vl
        (mkWorld (mkNet cpu true (trained tl epochs (parameters (net w))) g')
           (trace w ++ ev_to dev :: ev_train_mode
              :: concat (repeat (flat_map (train_events sgd_config) (batches tl))
                           (Z.to_nat epochs))
              ++ [ev_to cpu])).
Proof.
  destruct (train_epochs_exact sgd_config tl (Z.to_nat epochs)
              (sgd_init (parameters (net w)))
              (mkWorld (mkNet dev true (parameters (net w)) (grad (net w)))
                 ((trace w ++ [ev_to dev]) ++ [ev_train_mode])))
    as (g' & H).
  exists g'. unfold train.
  erewrite bind_Returns by reflexivity.
  erewrite bind_Returns by reflexivity.
  erewrite bind_Returns by reflexivity.
  cbn [net parameters].
  erewrite bind_Returns by exact H.
  erewrite bind_Returns by reflexivity.
  unfold evaluations, trained. f_equal.
  cbn [net trace location training parameters grad].
  rewrite <- !app_assoc. reflexivity.
Qed.

(** The two evaluations: the first empty dataset stops them. *)
Lemma evaluations_exact tl vl w :
  evaluations tl vl w
  = if Z.of_nat (length (dataset tl)) =? 0
    then Raises ZeroDivisionError (after_test tl None cpu w true)
    else if Z.of_nat (length (dataset vl)) =? 0
    then Raises ZeroDivisionError
           (after_test vl None cpu (after_test tl None cpu w false) true)
    else Returns
           (results
              (total_loss (parameters (net w)) (batches tl) 0)
              (inject_Z (total_correct (parameters (net w)) (batches tl) 0)
               / inject_Z (Z.of_nat (length (dataset tl))))
              (total_loss (parameters (net w)) (batches vl) 0)
              (inject_Z (total_correct (parameters (net w)) (batches vl) 0)
               / inject_Z (Z.of_nat (length (dataset vl)))))
           (after_test vl None cpu (after_test tl None cpu w false) false).
Proof.
  unfold evaluations.
  pose proof (test_exact tl None cpu w) as H1.
  rewrite consumed_none in H1.
  destruct (Z.of_nat (length (dataset tl)) =? 0).
  { now erewrite bind_Raises by exact H1. }
  erewrite bind_Returns by exact H1. cbn beta iota.
  pose proof (test_exact vl None cpu (after_test tl None cpu w false)) as H2.
  rewrite consumed_none in H2. cbn [after_test net parameters] in H2.
  destruct (Z.of_nat (length (dataset vl)) =? 0).
  { erewrite bind_Raises by exact H2. reflexivity. }
  erewrite bind_Returns by exact H2. reflexivity.
Qed.

Lemma consumed_prefix bs : forall steps i,
  exists n, consumed steps i bs = firstn n bs /\ (bs <> [] -> (1 <= n)%nat).
Proof.
  induction bs as [|b bs IH]; intros steps i.
  - exists O. split; [reflexivity | congruence].
  - cbn [consumed]. destruct steps as [k|]; [destruct (i =? k)|].
    + exists 1%nat. split; [reflexivity | lia].
    + destruct (IH (Some k) (i + 1)) as (n & Hn & _).
      exists (S n). rewrite Hn. split; [reflexivity | lia].
    + destruct (IH None (i + 1)) as (n & Hn & _).
      exists (S n). rewrite Hn. split; [reflexivity | lia].
Qed.

Lemma consumed_unbounded steps bs : unbounded steps bs -> consumed steps 0 bs = bs.
Proof.
  destruct steps as [k|]; cbn [unbounded]; [|intros _; apply consumed_none].
  intros [Hneg|Hbig]; [now apply consumed_negative|].
  destruct (Z.ltb_spec k 0); [now apply consumed_negative|].
  rewrite consumed_firstn by lia. apply firstn_all2. lia.
Qed.

Lemma processed_after_test tl steps dev w failed :
  processed (trace (after_test tl steps dev w failed))
  = processed (trace w) ++ consumed steps 0 (batches tl).
Proof.
  unfold after_test. cbn [trace]. rewrite processed_app. f_equal.
  cbn [processed flat_map app].
  change (flat_map _ ?l) with (processed l).
  rewrite processed_app, processed_eval_events.
  destruct failed; cbn; now rewrite app_nil_r.
Qed.

Lemma final_state_test tl steps dev w :
  final_state (test tl steps dev w)
  = after_test tl steps dev w (Z.of_nat (length (dataset tl)) =? 0).
Proof.
  rewrite test_exact. now destruct (Z.of_nat (length (dataset tl)) =? 0).
Qed.

Lemma total_correct_bounds p bs : forall c,
  c <= total_correct p bs c <= c + labels_total bs.
Proof.
  induction bs as [|b bs IH]; intros c; cbn [total_correct fold_left labels_total fold_right].
  - lia.
  - fold (total_correct p bs (c + batch_correct p b)).
    fold (labels_total bs).
    specialize (IH (c + batch_correct p b)).
    pose proof (count_equal_bounds
                  (torch_max_1 (net_forward false p (img b))) (label b)) as Hb.
    fold (batch_correct p b) in Hb. lia.
Qed.

Lemma optimizer_steps_train tl vl epochs dev w :
  optimizer_steps (trace (final_state (train tl vl epochs dev w)))
  = (optimizer_steps (trace w) + Z.to_nat epochs * length (batches tl))%nat.
Proof.
  destruct (train_exact tl vl epochs dev w) as (g' & ->).
  set (w1 := mkWorld _ _).
  destruct (evaluations_trace tl vl w1) as (tr & -> & Hev & _).
  rewrite optimizer_steps_app, (optimizer_steps_eval tr Hev). subst w1.
  cbn [trace]. rewrite optimizer_steps_app.
  change (ev_to dev :: ev_train_mode :: ?l) with ([ev_to dev; ev_train_mode] ++ l).
  rewrite !optimizer_steps_app.
  change (optimizer_steps [ev_to dev; ev_train_mode]) with O.
  change (optimizer_steps [ev_to cpu]) with O.
  assert (Hpass : forall bs, optimizer_steps (flat_map (train_events sgd_config) bs)
                             = length bs).
  { induction bs as [|b bs IH]; [reflexivity|].
    cbn [flat_map]. rewrite optimizer_steps_app, IH. reflexivity. }
  assert (Hall : forall n bs,
            optimizer_steps
              (concat (repeat (flat_map (train_events sgd_config) bs) n))
            = (n * length bs)%nat).
  { induction n as [|n IH]; intros bs; [reflexivity|].
    cbn [repeat concat]. rewrite optimizer_steps_app, Hpass, IH. lia. }
  rewrite Hall. lia.
Qed.

Lemma final_state_train tl vl epochs dev w :
  exists g' tr,
    final_state (train tl vl epochs dev w)
    = mkWorld (mkNet cpu false (trained tl epochs (parameters (net w))) g') tr.
Proof.
  destruct (train_exact tl vl epochs dev w) as (g' & ->).
  rewrite evaluations_exact. unfold after_test.
  destruct (Z.of_nat (length (dataset tl)) =? 0); [|
    destruct (Z.of_nat (length (dataset vl)) =? 0)];
    cbn [final_state net trace parameters grad]; eauto.
Qed.

End LoopExact.

(** ** Further statements about the loops *)

Section LoopExtras.
Context `{TL : TensorLib}.

(** X1: whatever the bound, the batches [test] runs the network on are an
    initial segment of the loader, in the loader's order, and the first
    batch of a loader that has one is always among them. *)
Theorem test_processes_prefix (tl : Loader) (steps : option Z) (dev : Device)
        (w : World) :
  exists n,
    processed (trace (final_state (test tl steps dev w)))
    = processed (trace w) ++ firstn n (batches tl)
    /\ (batches tl <> [] -> (1 <= n)%nat).
Proof.
  destruct (consumed_prefix (batches tl) steps 0) as (n & Hn & Hpos).
  exists n. split; [|exact Hpos].
  now rewrite final_state_test, processed_after_test, Hn.
Qed.

(** X2: without a bound, with a negative bound, or with a bound [k] such
    that the loader has at most [k + 1] batches, [test] runs the network on
    every batch of the loader. *)
Theorem test_unbounded_processes_all (tl : Loader) (steps : option Z)
        (dev : Device) (w : World) :
  unbounded steps (batches tl) ->
  processed (trace (final_state (test tl steps dev w)))
  = processed (trace w) ++ batches tl.
Proof.
  intros Hsteps.
  now rewrite final_state_test, processed_after_test, consumed_unbounded.
Qed.

(** X3: a [test] that returns has evaluated the network in inference mode,
    whatever mode it was in, on the weights it had: the loss is the sum of
    the losses of the batches the loop went through, in their order, and the
    accuracy is the number of right predictions in these batches divided by
    the size of the whole dataset. *)
Theorem test_returns_sums (tl : Loader) (steps : option Z) (dev : Device)
        (w w' : World) (loss accuracy : Q) :
  test tl steps dev w = Returns (loss, accuracy) w' ->
  loss = total_loss (parameters (net w)) (consumed steps 0 (batches tl)) 0
  /\ accuracy
     = (inject_Z (total_correct (parameters (net w))
                    (consumed steps 0 (batches tl)) 0)
        / inject_Z (Z.of_nat (length (dataset tl))))%Q.
Proof.
  rewrite test_exact.
  destruct (Z.of_nat (length (dataset tl)) =? 0); [discriminate|].
  intros [= <- <- _]. split; reflexivity.
Qed.

(** X4: however [test] ends, it has left weights and gradients as they
    were, has added nothing but evaluation events to the trace, and leaves
    the network in inference mode. *)
Theorem test_never_trains (tl : Loader) (steps : option Z) (dev : Device)
        (w : World) :
  let w' := final_state (test tl steps dev w) in
  parameters (net w') = parameters (net w)
  /\ grad (net w') = grad (net w)
  /\ training (net w') = false
  /\ exists tr, trace w' = trace w ++ tr /\ forallb is_eval_event tr = true.
Proof.
  cbv zeta. rewrite final_state_test. unfold after_test.
  cbn [net trace parameters grad training].
  repeat split. eexists. split; [reflexivity|].
  cbn [forallb is_eval_event andb]. rewrite forallb_app, eval_events_are_eval.
  now destruct (Z.of_nat (length (dataset tl)) =? 0).
Qed.

(** X5: the accuracy [test] returns is at most the number of labels in the
    batches the loop went through, divided by the size of the dataset: an
    evaluation cut short by [steps] cannot report more than the share of
    the dataset it has seen. *)
Theorem test_accuracy_cap (tl : Loader) (steps : option Z) (dev : Device)
        (w w' : World) (loss accuracy : Q) :
  test tl steps dev w = Returns (loss, accuracy) w' ->
  (accuracy <= inject_Z (labels_total (consumed steps 0 (batches tl)))
               / inject_Z (Z.of_nat (length (dataset tl))))%Q.
Proof.
  rewrite test_exact.
  destruct (Z.eqb_spec (Z.of_nat (length (dataset tl))) 0) as [|Hn];
    [discriminate|].
  intros [= _ <- _].
  pose proof (total_correct_bounds (parameters (net w))
                (consumed steps 0 (batches tl)) 0) as Hc.
  set (c := total_correct _ _ _) in *. set (t := labels_total _) in *.
  set (n := Z.of_nat (length (dataset tl))) in *.
  assert (Hpos : (0 < inject_Z n)%Q) by (unfold Qlt; cbn; lia).
  unfold Qdiv. apply Qmult_le_compat_r.
  - unfold Qle. cbn. lia.
  - apply Qlt_le_weak, Qinv_lt_0_compat, Hpos.
Qed.

(** X6: however [train] ends, it has taken one optimizer step per batch and
    pass: [len(range(epochs))] times the number of batches of the training
    loader. *)
Theorem train_optimizer_step_count (tl vl : Loader) (epochs : Z) (dev : Device)
        (w : World) :
  optimizer_steps (trace (final_state (train tl vl epochs dev w)))
  = (optimizer_steps (trace w) + Z.to_nat epochs * length (batches tl))%nat.
Proof. apply optimizer_steps_train. Qed.

(** X7: with [epochs] zero or negative [range(epochs)] is empty, and [train]
    does what it does with [epochs = 0]. *)
Theorem train_nonpositive_epochs (tl vl : Loader) (epochs : Z) (dev : Device)
        (w : World) :
  epochs <= 0 ->
  train tl vl epochs dev w = train tl vl 0 dev w.
Proof.
  intros Hle. unfold train. now replace (Z.to_nat epochs) with (Z.to_nat 0) by lia.
Qed.

(** X8: [train] returns exactly when the datasets of both loaders are not
    empty; when one of them is empty it raises [ZeroDivisionError], and does
    so only after the whole training. *)
Theorem train_returns_iff_datasets_nonempty (tl vl : Loader) (epochs : Z)
        (dev : Device) (w : World) :
  ((dataset tl = [] \/ dataset vl = [])
   /\ exists w', train tl vl epochs dev w = Raises ZeroDivisionError w'
                 /\ optimizer_steps (trace w')
                    = (optimizer_steps (trace w)
                       + Z.to_nat epochs * length (batches tl))%nat)
  \/ (dataset tl <> [] /\ dataset vl <> []
      /\ exists r w', train tl vl epochs dev w = Returns r w').
Proof.
  pose proof (optimizer_steps_train tl vl epochs dev w) as Hsteps.
  destruct (train_exact tl vl epochs dev w) as (g' & Heq).
  rewrite Heq in Hsteps |- *. rewrite evaluations_exact in Hsteps |- *.
  destruct (dataset tl) as [|x xs]; [left; split; [now left|]; eauto|].
  change (Z.of_nat (length (x :: xs)) =? 0) with false in Hsteps |- *.
  cbn iota in Hsteps |- *.
  destruct (dataset vl) as [|y ys]; [left; split; [now right|]; eauto|].
  right. repeat split; try discriminate. eauto.
Qed.

(** X9: however [train] ends, by returning or by raising at a division, the
    network is on the CPU and in inference mode: [train] does not put it
    back into training mode. *)
Theorem train_exit_on_cpu_in_eval_mode (tl vl : Loader) (epochs : Z)
        (dev : Device) (w : World) :
  location (net (final_state (train tl vl epochs dev w))) = cpu
  /\ training (net (final_state (train tl vl epochs dev w))) = false.
Proof.
  destruct (final_state_train tl vl epochs dev w) as (g' & tr & ->).
  split; reflexivity.
Qed.

(** X10: the four metrics [train] returns are those of the trained network
    over all batches of each loader: the summed losses, and the numbers of
    right predictions divided by the sizes of the datasets. *)
Theorem train_returns_metrics (tl vl : Loader) (epochs : Z) (dev : Device)
        (w w' : World) (r : gmap string Q) :
  train tl vl epochs dev w = Returns r w' ->
  let p := trained tl epochs (parameters (net w)) in
  r !! "train_loss" = Some (total_loss p (batches tl) 0)
  /\ r !! "train_accuracy"
     = Some (inject_Z (total_correct p (batches tl) 0)
             / inject_Z (Z.of_nat (length (dataset tl))))%Q
  /\ r !! "val_loss" = Some (total_loss p (batches vl) 0)
  /\ r !! "val_accuracy"
     = Some (inject_Z (total_correct p (batches vl) 0)
             / inject_Z (Z.of_nat (length (dataset vl))))%Q
  /\ forall key, is_Some (r !! key) ->
       key ∈ ["train_loss"; "train_accuracy"; "val_loss"; "val_accuracy"].
Proof.
  destruct (train_exact tl vl epochs dev w) as (g' & ->).
  rewrite evaluations_exact. cbn [net parameters].
  destruct (Z.of_nat (length (dataset tl)) =? 0); [discriminate|].
  destruct (Z.of_nat (length (dataset vl)) =? 0); [discriminate|].
  intros [= <- _]. cbv zeta. unfold results.
  repeat (split; [now simplify_map_eq|]).
  intros key [v Hv].
  repeat (apply lookup_insert_Some in Hv as [[<- _]|[_ Hv]]; [set_solver|]).
  now rewrite lookup_empty in Hv.
Qed.

(** X11: however [train] ends, the weights of the network are those reached
    from the initial weights by one optimizer update per batch, in the order
    of the loader, pass after pass.  Every update sees the gradient of its
    batch alone, and the state of the optimizer carries over from batch to
    batch and from pass to pass. *)
Theorem train_final_weights (tl vl : Loader) (epochs : Z) (dev : Device)
        (w : World) :
  parameters (net (final_state (train tl vl epochs dev w)))
  = snd (sgd_passes (mkSGD 0.1 0.9 0.0001)
           (sgd_init (parameters (net w)), parameters (net w))
           (batches tl) (Z.to_nat epochs)).
Proof.
  destruct (final_state_train tl vl epochs dev w) as (g' & tr & ->).
  reflexivity.
Qed.

End LoopExtras.


(** ** The store, exactly *)

Lemma bind_Raises_inv {S A B} (m : M S A) (k : A -> M S B) s e s' :
  (m ≫= k) s = Raises e s' ->
  m s = Raises e s' \/ exists a s1, m s = Returns a s1 /\ k a s1 = Raises e s'.
Proof.
  unfold mbind, M_bind. destruct (m s) as [a s1|e1 s1]; intros H.
  - right. now exists a, s1.
  - left. now injection H as -> ->.
Qed.

Section StoreExact.
Context `{IL : ImageLib}.

(** Reading never writes. *)
Lemma getitem_state d key (h : gmap positive Obj) :
  final_state (getitem d key h) = h.
Proof.
  unfold getitem. destruct d as [| | | |l]; try reflexivity.
  destruct (h !! l) as [[items| |]|]; try reflexivity.
  now destruct (items !! key).
Qed.

Lemma iterate_state v (h : gmap positive Obj) : final_state (iterate v h) = h.
Proof.
  unfold iterate. destruct v as [| | | |l]; try reflexivity.
  now destruct (h !! l) as [[| |]|].
Qed.

Lemma getattr_state o name (h : gmap positive Obj) :
  final_state (getattr o name h) = h.
Proof.
  unfold getattr. destruct o as [| | | |l]; try reflexivity.
  destruct (h !! l) as [[| |attrs]|]; try reflexivity.
  now destruct (attrs !! name).
Qed.

Lemma comprehension_state elems : forall h : gmap positive Obj,
  final_state (comprehension pytorch_transforms elems h) = h.
Proof.
  induction elems as [|v elems IH]; intros h; [reflexivity|].
  cbn [comprehension]. unfold mbind, M_bind.
  destruct v; try reflexivity. cbn.
  specialize (IH h).
  destruct (comprehension pytorch_transforms elems h); cbn in *; exact IH.
Qed.


Lemma comprehension_raises elems (h h' : gmap positive Obj) e :
  comprehension pytorch_transforms elems h = Raises e h' ->
  e = TypeError /\ h' = h /\ exists v, v ∈ elems /\ forall p, v <> VImage p.
Proof.
  revert h h' e. induction elems as [|v elems IH]; intros h h' e; [discriminate|].
  cbn [comprehension]. intros H.
  apply bind_Raises_inv in H as [H|(y & h1 & Hv & H)].
  - destruct v; try discriminate H;
      injection H as <- <-; (split; [reflexivity|]); (split; [reflexivity|]);
      eexists; (split; [apply list_elem_of_here|]); discriminate.
  - destruct v; try discriminate Hv. injection Hv as <- <-.
    apply bind_Raises_inv in H as [H|(ys & h2 & _ & H)]; [|discriminate H].
    destruct (IH _ _ _ H) as (-> & -> & v & Hin & Hv).
    repeat split. exists v. split; [now apply list_elem_of_further | exact Hv].
Qed.


(** Why [apply_transforms] raises, when it does. *)
Lemma apply_transforms_raises_inv batch (h h' : gmap positive Obj) e :
  apply_transforms batch h = Raises e h' ->
  h' = h
  /\ (e = KeyError
      /\ (exists b items, batch = VRef b /\ h !! b = Some (ODict items)
                          /\ items !! "img" = None)
      \/ e = TypeError).
Proof.
  unfold apply_transforms. intros H.
  apply bind_Raises_inv in H as [H|(imgs & h1 & Hg & H)].
  { split; [pose proof (getitem_state batch "img" h) as Hs; now rewrite H in Hs|].
    unfold getitem in H. destruct batch as [| | | |b]; try (injection H as <- _; now right).
    destruct (h !! b) as [[items| |]|] eqn:Hb; try (injection H as <- _; now right).
    destruct (items !! "img") eqn:Himg; [discriminate H|].
    injection H as <- _. left. split; [reflexivity|]. now exists b, items. }
  pose proof (getitem_state batch "img" h) as Hs. rewrite Hg in Hs. cbn in Hs. subst h1.
  apply bind_Raises_inv in H as [H|(elems & h2 & Hi & H)].
  { split; [pose proof (iterate_state imgs h) as Hs; now rewrite H in Hs|].
    right. unfold iterate in H. destruct imgs as [| | | |l]; try (now injection H).
    destruct (h !! l) as [[| |]|]; try discriminate H; now injection H. }
  pose proof (iterate_state imgs h) as Hs. rewrite Hi in Hs. cbn in Hs. subst h2.
  apply bind_Raises_inv in H as [H|(out & h3 & Hc & H)].
  { destruct (comprehension_raises _ _ _ _ H) as (-> & -> & _). split; [reflexivity | now right]. }
  pose proof (comprehension_state elems h) as Hs. rewrite Hc in Hs. cbn in Hs. subst h3.
  apply bind_Raises_inv in H as [H|(new & h4 & Ha & H)]; [discriminate H|].
  unfold alloc in Ha. injection Ha as <- <-.
  apply bind_Raises_inv in H as [H|(u & h5 & _ & H)]; [|discriminate H].
  exfalso. unfold getitem in Hg. destruct batch as [| | | |b]; try discriminate Hg.
  destruct (h !! b) as [[items| |]|] eqn:Hb; try discriminate Hg.
  assert (Hne : fresh (dom h) <> b).
  { intros Heq. pose proof (fresh_unused h) as Hf. rewrite Heq in Hf. congruence. }
  unfold setitem in H. rewrite lookup_insert_ne, Hb in H by exact Hne. discriminate H.
Qed.

Lemma getattr_raises o name (h h' : gmap positive Obj) e :
  getattr o name h = Raises e h' -> e = AttributeError /\ h' = h.
Proof.
  unfold getattr. destruct o as [| | | |l]; try (now intros [= <- <-]).
  destruct (h !! l) as [[| |attrs]|]; try (now intros [= <- <-]).
  destruct (attrs !! name); [discriminate | now intros [= <- <-]].
Qed.

(** [replace_classifying_layer] is [replace_outcome]. *)
Lemma replace_classifying_layer_exact model classes (h : gmap positive Obj) :
  replace_classifying_layer model classes h = replace_outcome h model classes.
Proof.
  unfold replace_classifying_layer, replace_outcome, with_new_head.
  cbn [read_path].
  destruct (getattr model "classifier" h) as [c h1|e h1] eqn:H1.
  2:{ pose proof H1 as H1'. apply getattr_raises in H1 as [-> ->].
      now erewrite bind_Raises by exact H1'. }
  pose proof H1 as H1'.
  apply getattr_inv in H1 as (-> & m & mattrs & -> & Hm & Hcls).
  erewrite bind_Returns by exact H1'.
  destruct (getattr c "fc" h) as [f h1|e h1] eqn:H2.
  2:{ pose proof H2 as H2'. apply getattr_raises in H2 as [-> ->].
      now erewrite bind_Raises by exact H2'. }
  pose proof H2 as H2'.
  apply getattr_inv in H2 as (-> & cls & cattrs & -> & Hcl & Hfc).
  erewrite bind_Returns by exact H2'.
  destruct (getattr f "in_features" h) as [n h1|e h1] eqn:H3.
  2:{ pose proof H3 as H3'. apply getattr_raises in H3 as [-> ->].
      now erewrite bind_Raises by exact H3'. }
  pose proof H3 as H3'.
  apply getattr_inv in H3 as (-> & fc & fattrs & -> & Hfl & Hnf).
  erewrite bind_Returns by exact H3'.
  unfold torch_nn_Linear.
  destruct n as [|nf| | |]; try (now erewrite bind_Raises by reflexivity).
  destruct ((nf <? 0) || (classes <? 0)); [now erewrite bind_Raises by reflexivity|].
  erewrite bind_Returns by reflexivity.
  assert (Hfresh : forall l o, h !! l = Some o -> fresh (dom h) <> l).
  { intros l o Hl Heq. pose proof (fresh_unused h) as Hu.
    rewrite Heq in Hu. congruence. }
  erewrite bind_Returns
    by (apply getattr_lookup with (attrs := mattrs);
        [rewrite lookup_insert_ne by eauto; exact Hm | exact Hcls]).
  erewrite bind_Returns
    by (unfold setattr; rewrite lookup_insert_ne, Hcl by eauto; reflexivity).
  rewrite Hcl. reflexivity.
Qed.

(** Reading the head of a model to which [with_new_head] applies. *)
Lemma read_path_head_inv (h : gmap positive Obj) model v :
  read_path h model ["classifier"; "fc"; "in_features"] = Some v ->
  exists m mattrs cls cattrs fc fattrs,
    model = VRef m
    /\ h !! m = Some (OModule mattrs) /\ mattrs !! "classifier" = Some (VRef cls)
    /\ h !! cls = Some (OModule cattrs) /\ cattrs !! "fc" = Some (VRef fc)
    /\ h !! fc = Some (OModule fattrs) /\ fattrs !! "in_features" = Some v.
Proof.
  cbn [read_path].
  destruct (getattr model "classifier" h) as [c h1|] eqn:H1; [|discriminate].
  apply getattr_inv in H1 as (_ & m & mattrs & -> & Hm & Hcls).
  destruct (getattr c "fc" h) as [f h2|] eqn:H2; [|discriminate].
  apply getattr_inv in H2 as (_ & cls & cattrs & -> & Hcl & Hfc).
  destruct (getattr f "in_features" h) as [n h3|] eqn:H3; [|discriminate].
  apply getattr_inv in H3 as (_ & fc & fattrs & -> & Hfl & Hnf).
  intros [= <-]. now exists m, mattrs, cls, cattrs, fc, fattrs.
Qed.

(** The head after the surgery. *)
Lemma read_path_with_new_head (h : gmap positive Obj) model nf0 nf classes :
  read_path h model ["classifier"; "fc"; "in_features"] = Some (VInt nf0) ->
  read_path (with_new_head h model nf classes) model
    ["classifier"; "fc"; "in_features"] = Some (VInt nf)
  /\ read_path (with_new_head h model nf classes) model
       ["classifier"; "fc"; "out_features"] = Some (VInt classes).
Proof.
  intros Hread.
  destruct (read_path_head_inv _ _ _ Hread)
    as (m & mattrs & cls & cattrs & fc & fattrs & -> & Hm & Hcls & Hcl & Hfc
        & Hfl & Hnf).
  unfold with_new_head. cbn [read_path].
  rewrite (getattr_lookup _ _ _ _ _ Hm Hcls), Hcl.
  pose proof (fresh_unused h) as Hnew.
  set (new := fresh (dom h)) in *.
  set (h' := <[cls := _]> _).
  assert (Hcl' : h' !! cls = Some (OModule (<["fc" := VRef new]> cattrs)))
    by apply lookup_insert_eq.
  assert (Hnew' : h' !! new = Some (linear_layer nf classes)).
  { unfold h'. rewrite lookup_insert_ne by congruence. apply lookup_insert_eq. }
  assert (Hm' : exists mattrs', h' !! m = Some (OModule mattrs')
                                /\ mattrs' !! "classifier" = Some (VRef cls)).
  { destruct (decide (m = cls)) as [->|Hne].
    - eexists. split; [exact Hcl'|].
      rewrite lookup_insert_ne by discriminate. congruence.
    - exists mattrs. split; [|exact Hcls]. unfold h'.
      rewrite !lookup_insert_ne by congruence. exact Hm. }
  destruct Hm' as (mattrs' & Hm' & Hcls').
  rewrite !(getattr_lookup _ _ _ _ _ Hm' Hcls').
  assert (Hfc' : (<["fc" := VRef new]> cattrs : gmap string Value) !! "fc"
                 = Some (VRef new)) by apply lookup_insert_eq.
  rewrite !(getattr_lookup _ _ _ _ _ Hcl' Hfc').
  rewrite (getattr_lookup new _ "out_features" h' (VInt classes) Hnew')
    by reflexivity.
  rewrite (getattr_lookup new _ "in_features" h' (VInt nf) Hnew')
    by reflexivity.
  split; reflexivity.
Qed.

End StoreExact.

(** ** Further statements about the store *)

Section StoreExtras.
Context `{IL : ImageLib}.



(** X14: [apply_transforms] is not to be called twice on one batch.  After
    a call that returned on a batch with at least one image, a second call
    on the same mapping raises [TypeError], the list under [img] now holding
    tensors, and leaves the store as the first call left it. *)
Theorem apply_transforms_twice (b old : positive) (items : gmap string Value)
        (x : Value) (xs : list Value) (v : Value) (h h' : gmap positive Obj) :
  h !! b = Some (ODict items) ->
  items !! "img" = Some (VRef old) ->
  h !! old = Some (OList (x :: xs)) ->
  apply_transforms (VRef b) h = Returns v h' ->
  apply_transforms (VRef b) h' = Raises TypeError h'.
Proof.
  intros Hb Himg Hold Hret.
  destruct (apply_transforms_inv _ _ _ _ Hret)
    as (b' & items' & old' & raw & _ & [= <-] & Hb' & Himg' & Hold' & ->).
  rewrite Hb in Hb'. injection Hb' as <-.
  rewrite Himg in Himg'. injection Himg' as <-.
  rewrite Hold in Hold'. injection Hold' as Hraw.
  destruct raw as [|p raw]; [discriminate Hraw|].
  pose proof (fresh_unused h) as Hnew.
  set (new := fresh (dom h)) in *.
  set (h' := <[b := _]> _).
  assert (Hnb : new <> b) by congruence.
  unfold apply_transforms.
  erewrite bind_Returns
    by (unfold getitem, h'; rewrite lookup_insert_eq, lookup_insert_eq; reflexivity).
  erewrite bind_Returns
    by (unfold iterate, h'; rewrite lookup_insert_ne, lookup_insert_eq by congruence;
        reflexivity).
  reflexivity.
Qed.




End StoreExtras.

(** ** Loading the model *)

Section HubExtras.
Context `{IL : ImageLib}.
Variable hub_load : string -> string -> bool -> M (gmap positive Obj) Value.

(** X18: without [classes], [load_efficientnet] is the download: it returns
    the hub's model on the hub's store, or raises what the hub raises, and
    does nothing to the model. *)
Theorem load_efficientnet_untouched (entrypoint : string)
        (h : gmap positive Obj) :
  load_efficientnet hub_load entrypoint None h
  = hub_load "NVIDIA/DeepLearningExamples:torchhub" entrypoint true h.
Proof.
  unfold load_efficientnet, mbind, M_bind, mret, M_ret.
  now destruct (hub_load _ entrypoint true h).
Qed.

(** X19: with [classes], a [load_efficientnet] that returns gives back the
    object the hub has returned, its head cut to [classes] outputs on the
    inputs the downloaded head had. *)
Theorem load_efficientnet_with_classes (entrypoint : string) (classes : Z)
        (v : Value) (h h' : gmap positive Obj) :
  load_efficientnet hub_load entrypoint (Some classes) h = Returns v h' ->
  exists h1,
    hub_load "NVIDIA/DeepLearningExamples:torchhub" entrypoint true h
    = Returns v h1
    /\ read_path h' v ["classifier"; "fc"; "out_features"] = Some (VInt classes)
    /\ read_path h' v ["classifier"; "fc"; "in_features"]
       = read_path h1 v ["classifier"; "fc"; "in_features"].
Proof.
  unfold load_efficientnet. intros Hret.
  apply bind_Returns_inv in Hret as (m & h1 & Hhub & Hret).
  apply bind_Returns_inv in Hret as (u & h2 & Hrep & Hret).
  injection Hret as <- <-. exists h1. split; [exact Hhub|].
  rewrite replace_classifying_layer_exact in Hrep. unfold replace_outcome in Hrep.
  destruct (read_path h1 m ["classifier"; "fc"; "in_features"])
    as [[|nf| | |]|] eqn:Hread; try discriminate.
  destruct ((nf <? 0) || (classes <? 0)); [discriminate|].
  injection Hrep as _ <-.
  destruct (read_path_with_new_head h1 m nf nf classes Hread) as [Hin Hout].
  split; assumption.
Qed.

End HubExtras.

(** ** References stay bound *)

Section ClosedFacts.
Context `{IL : ImageLib}.

Lemma bound_in_insert (h : gmap positive Obj) l o v :
  bound_in h v -> bound_in (<[l := o]> h) v.
Proof.
  destruct v as [| | | |r]; try (intros; exact I). cbn [bound_in].
  intros Hr. apply lookup_insert_is_Some'. now right.
Qed.

Lemma obj_closed_insert (h : gmap positive Obj) l o o' :
  obj_closed h o' -> obj_closed (<[l := o]> h) o'.
Proof.
  destruct o' as [items|elems|attrs]; cbn [obj_closed].
  - intros H. eapply map_Forall_impl; [exact H|]. intros k v. apply bound_in_insert.
  - intros H. eapply Forall_impl; [exact H|]. intros v. apply bound_in_insert.
  - intros H. eapply map_Forall_impl; [exact H|]. intros k v. apply bound_in_insert.
Qed.

(** Adding or replacing an object whose references are bound. *)
Lemma closed_insert (h : gmap positive Obj) l o :
  closed h -> obj_closed (<[l := o]> h) o -> closed (<[l := o]> h).
Proof.
  intros Hh Ho. apply map_Forall_insert_2; [exact Ho|].
  eapply map_Forall_impl; [exact Hh|]. intros l' o'. apply obj_closed_insert.
Qed.

Lemma closed_after_apply_transforms batch (h h' : gmap positive Obj) v :
  closed h -> apply_transforms batch h = Returns v h' -> closed h'.
Proof.
  intros Hh Hret.
  destruct (apply_transforms_inv _ _ _ _ Hret)
    as (b & items & old & raw & _ & _ & Hb & _ & _ & ->).
  apply closed_insert; [apply closed_insert; [exact Hh|]|].
  - cbn [obj_closed]. apply Forall_fmap, Forall_forall. intros; exact I.
  - cbn [obj_closed]. apply map_Forall_insert_2.
    + cbn [bound_in]. apply lookup_insert_is_Some'. right.
      rewrite lookup_insert_eq. eauto.
    + pose proof (map_Forall_lookup_1 _ _ _ _ Hh Hb) as Hitems.
      cbn [obj_closed] in Hitems.
      eapply map_Forall_impl; [exact Hitems|].
      intros k x Hx. now do 2 apply bound_in_insert.
Qed.

Lemma closed_with_new_head (h : gmap positive Obj) model nf classes :
  closed h -> closed (with_new_head h model nf classes).
Proof.
  intros Hh. unfold with_new_head.
  destruct (read_path h model ["classifier"]) as [[| | | |cls]|]; try exact Hh.
  destruct (h !! cls) as [[| |cattrs]|] eqn:Hcl; try exact Hh.
  apply closed_insert; [apply closed_insert; [exact Hh|]|].
  - unfold linear_layer. cbn [obj_closed].
    repeat (apply map_Forall_insert_2; [exact I|]). apply map_Forall_empty.
  - cbn [obj_closed]. apply map_Forall_insert_2.
    + cbn [bound_in]. apply lookup_insert_is_Some'. right.
      rewrite lookup_insert_eq. eauto.
    + pose proof (map_Forall_lookup_1 _ _ _ _ Hh Hcl) as Hattrs.
      cbn [obj_closed] in Hattrs.
      eapply map_Forall_impl; [exact Hattrs|].
      intros k x Hx. now do 2 apply bound_in_insert.
Qed.

(** X20: a store in which every reference is bound stays so through
    [apply_transforms] and through [replace_classifying_layer], however
    they end: neither leaves a reference to nothing. *)
Theorem references_stay_bound (h : gmap positive Obj) :
  closed h ->
  (forall batch, closed (final_state (apply_transforms batch h)))
  /\ (forall model classes,
        closed (final_state (replace_classifying_layer model classes h))).
Proof.
  intros Hh. split.
  - intros batch.
    destruct (apply_transforms batch h) as [v h'|e h'] eqn:Hret; cbn [final_state].
    + exact (closed_after_apply_transforms _ _ _ _ Hh Hret).
    + now destruct (apply_transforms_raises_inv _ _ _ _ Hret) as [-> _].
  - intros model classes. rewrite replace_classifying_layer_exact.
    unfold replace_outcome.
    destruct (read_path h model ["classifier"; "fc"; "in_features"])
      as [[|nf| | |]|]; try exact Hh.
    destruct ((nf <? 0) || (classes <? 0)); [exact Hh|].
    apply closed_with_new_head, Hh.
Qed.

End ClosedFacts.

(** ** The further statements on concrete inputs *)

(** A bound of five on the loader of two batches. *)
Lemma test_unbounded_processes_all_witness :
  unbounded (Some 5) (batches Toy.loader)
  /\ processed (trace (final_state (test Toy.loader (Some 5) cpu Toy.world)))
     = processed (trace Toy.world) ++ batches Toy.loader.
Proof.
  assert (H : unbounded (Some 5) (batches Toy.loader)).
  { right. vm_compute. discriminate. }
  split; [exact H|].
  exact (@test_unbounded_processes_all Toy.torch Toy.loader (Some 5) cpu
           Toy.world H).
Defined.

Lemma test_returns_sums_witness :
  exists loss accuracy w',
    test Toy.loader (Some 0) cpu Toy.world = Returns (loss, accuracy) w'
    /\ loss = total_loss (parameters (net Toy.world))
                (consumed (Some 0) 0 (batches Toy.loader)) 0.
Proof.
  destruct (test Toy.loader (Some 0) cpu Toy.world)
    as [[loss accuracy] w'|e w'] eqn:Hret.
  - exists loss, accuracy, w'. split; [reflexivity|].
    exact (proj1 (@test_returns_sums Toy.torch Toy.loader (Some 0) cpu Toy.world
                    w' loss accuracy Hret)).
  - exfalso.
    assert (H : returned (test Toy.loader (Some 0) cpu Toy.world) = true)
      by (vm_compute; reflexivity).
    rewrite Hret in H. discriminate H.
Defined.

(** Cut after the first of two batches, at most half of the four samples
    can count as right. *)
Lemma test_accuracy_cap_witness :
  exists loss accuracy w',
    test Toy.loader (Some 0) cpu Toy.world = Returns (loss, accuracy) w'
    /\ (accuracy
        <= inject_Z (labels_total (consumed (Some 0%Z) 0%Z (batches Toy.loader)))
           / inject_Z (Z.of_nat (length (dataset Toy.loader))))%Q.
Proof.
  destruct (test Toy.loader (Some 0) cpu Toy.world)
    as [[loss accuracy] w'|e w'] eqn:Hret.
  - exists loss, accuracy, w'. split; [reflexivity|].
    exact (@test_accuracy_cap Toy.torch Toy.loader (Some 0) cpu Toy.world
             w' loss accuracy Hret).
  - exfalso.
    assert (H : returned (test Toy.loader (Some 0) cpu Toy.world) = true)
      by (vm_compute; reflexivity).
    rewrite Hret in H. discriminate H.
Defined.

Lemma train_nonpositive_epochs_witness :
  -3 <= 0
  /\ train Toy.loader Toy.loader (-3) cpu Toy.world
     = train Toy.loader Toy.loader 0 cpu Toy.world.
Proof.
  assert (H : -3 <= 0) by lia.
  split; [exact H|].
  exact (@train_nonpositive_epochs Toy.torch Toy.loader Toy.loader (-3) cpu
           Toy.world H).
Defined.

(** Two passes over the toy loader, then the metrics. *)
Lemma train_returns_metrics_witness :
  exists r w',
    train Toy.loader Toy.loader 2 cpu Toy.world = Returns r w'
    /\ r !! "train_loss"
       = Some (total_loss (trained Toy.loader 2 (parameters (net Toy.world)))
                 (batches Toy.loader) 0).
Proof.
  destruct (train Toy.loader Toy.loader 2 cpu Toy.world) as [r w'|e w'] eqn:Hret.
  - exists r, w'. split; [reflexivity|].
    exact (proj1 (@train_returns_metrics Toy.torch Toy.loader Toy.loader 2 cpu
                    Toy.world w' r Hret)).
  - exfalso.
    assert (H : returned (train Toy.loader Toy.loader 2 cpu Toy.world) = true)
      by (vm_compute; reflexivity).
    rewrite Hret in H. discriminate H.
Defined.


(** The batch of one image, transformed twice. *)
Lemma apply_transforms_twice_witness :
  exists v h',
    @apply_transforms Toy.vision (VRef 1) Toy.batch_store = Returns v h'
    /\ @apply_transforms Toy.vision (VRef 1) h' = Raises TypeError h'.
Proof.
  destruct (@apply_transforms Toy.vision (VRef 1) Toy.batch_store)
    as [v h'|e h'] eqn:Hret.
  - exists v, h'. split; [reflexivity|].
    apply (@apply_transforms_twice Toy.vision 1%positive 2%positive
             (<["img" := VRef 2]> (<["label" := VRef 3]> ∅))
             (@VImage Toy.vision (32, 32)) [] v Toy.batch_store h');
      [reflexivity | reflexivity | reflexivity | exact Hret].
  - exfalso.
    assert (H : returned (@apply_transforms Toy.vision (VRef 1) Toy.batch_store)
                = true) by (vm_compute; reflexivity).
    rewrite Hret in H. discriminate H.
Defined.



(** The toy hub asked for its model with ten classes. *)
Lemma load_efficientnet_with_classes_witness :
  exists v h',
    @load_efficientnet Toy.vision Cases.hub "nvidia_efficientnet_b0" (Some 10) ∅
    = Returns v h'
    /\ read_path h' v ["classifier"; "fc"; "out_features"] = Some (VInt 10).
Proof.
  destruct (@load_efficientnet Toy.vision Cases.hub "nvidia_efficientnet_b0"
              (Some 10) ∅) as [v h'|e h'] eqn:Hret.
  - exists v, h'. split; [reflexivity|].
    destruct (@load_efficientnet_with_classes Toy.vision Cases.hub
                "nvidia_efficientnet_b0" 10 v ∅ h' Hret) as (h1 & _ & Hout & _).
    exact Hout.
  - exfalso.
    assert (H : returned (@load_efficientnet Toy.vision Cases.hub
                            "nvidia_efficientnet_b0" (Some 10) ∅) = true)
      by (vm_compute; reflexivity).
    rewrite Hret in H. discriminate H.
Defined.

Lemma toy_batch_store_closed : closed Toy.batch_store.
Proof.
  unfold Toy.batch_store.
  repeat (apply closed_insert; [|cbn [obj_closed]]); [apply map_Forall_empty|..].
  - repeat constructor.
  - repeat constructor.
  - repeat (apply map_Forall_insert_2; [|]); [| |apply map_Forall_empty];
      cbn [bound_in]; eexists; vm_compute; reflexivity.
Qed.

(** The batch of one image: no reference dangles before, none after. *)
Lemma references_stay_bound_witness :
  closed Toy.batch_store
  /\ closed (final_state (@apply_transforms Toy.vision (VRef 1) Toy.batch_store)).
Proof.
  split; [exact toy_batch_store_closed|].
  exact (proj1 (@references_stay_bound Toy.vision Toy.batch_store
                  toy_batch_store_closed) (VRef 1)).
Defined.

(** ** Evaluating again *)

Section Repeat.
Context `{TL : TensorLib}.



End Repeat.


